(** * falun/json: decode-time validation on top of encoding/json

  A shallow embedding of [json.go]: the [Options] record, the prepared
  options, the presence test, the two validation loops with their
  fail-fast jump, and [UnmarshalX] itself.  Go maps are [gmap]s, slices
  are lists, a nil [*json.RawMessage] is [None], and the destination the
  caller passes as [v] is threaded through explicitly. *)

From Stdlib Require Import Strings.Byte Strings.Ascii Strings.String.
From stdpp Require Import gmap strings list relations pretty.

Set Warnings "-register-all".

(** ** The part of encoding/json the package calls into *)

Module EncodingJSON.

(** Go's [[]byte]. *)
Definition bytes := list Byte.byte.

(** The value a syntactically valid document denotes.  Object members
    are kept in document order, duplicates included. *)
Inductive Value : Type :=
| VNull
| VBool (b : bool)
| VNumber (literal : string)
| VString (s : string)
| VList (elements : list Value)
| VObject (members : list (string * Value)).

(** The errors encoding/json hands back. *)
Inductive json_error : Type :=
| SyntaxError (msg : string)
| UnmarshalTypeError (value : string) (type : string)
| InvalidUnmarshalError (type : string).

(** [json.RawMessage]: the undecoded text of a member, stood for by the
    value that text denotes.  [UnmarshalX] never looks inside one. *)
Definition RawMessage := Value.

Definition is_object (val : Value) : bool :=
  match val with VObject _ => true | _ => false end.

Definition is_null (val : Value) : bool :=
  match val with VNull => true | _ => false end.

(** The name encoding/json gives a value's kind in an
    [UnmarshalTypeError]. *)
Definition kind_name (val : Value) : string :=
  match val with
  | VNull => "null"
  | VBool _ => "bool"
  | VNumber _ => "number"
  | VString _ => "string"
  | VList _ => "array"
  | VObject _ => "object"
  end.

(** A member stored into a map element of type [*json.RawMessage]: the
    literal [null] leaves the pointer nil, anything else allocates. *)
Definition raw_pointer (val : Value) : option RawMessage :=
  if is_null val then None else Some val.

(** Members are stored left to right, so a repeated key keeps its last
    occurrence. *)
Definition store_members (members : list (string * Value))
  : gmap string (option RawMessage) :=
  foldl (λ m kv, <[kv.1 := raw_pointer kv.2]> m) ∅ members.

(** [json.Unmarshal] of an already scanned value into a fresh
    [map[string]*json.RawMessage].  As the package documentation of
    encoding/json has it, a JSON object fills the map, the JSON [null]
    sets the map to nil without an error (a nil map reads as the empty
    map), and every other value is an [UnmarshalTypeError]. *)
Definition rawmap_of (val : Value)
  : json_error + gmap string (option RawMessage) :=
  match val with
  | VObject members => inr (store_members members)
  | VNull => inr ∅
  | _ => inl (UnmarshalTypeError (kind_name val) "map[string]*json.RawMessage")
  end.

End EncodingJSON.

Import EncodingJSON.

(** ** Error types of the package *)

(** [MissingKey] and [ForbiddenKey], the two [iota] constants. *)
Inductive ValidationErrorType : Type :=
| MissingKey
| ForbiddenKey.

Record ValidationError : Type := mkValidationError {
  Type_ : ValidationErrorType;
  Key : string
}.

Record ErrorCollection : Type := mkErrorCollection {
  errors : list ValidationError
}.

(** Go's [error], by the dynamic type of the value: one of
    encoding/json's errors, one of the two error types of this package,
    or a value of any other type, known by its message. *)
Inductive error : Type :=
| LibraryError (e : json_error)
| OfValidationError (ve : ValidationError)
| OfErrorCollection (ec : ErrorCollection)
| OtherError (msg : string).

(** What the package needs from encoding/json for a destination type
    [Dest]: the scanner, and [json.Unmarshal] into the caller's [v],
    which returns the destination as it leaves it together with the
    error, if any.  That error is an [error] like any other: when the
    destination, or a field of it, has an [UnmarshalJSON] method,
    encoding/json returns that method's error unchanged, and such a
    method may itself call [UnmarshalX]. *)
Record Library (Dest : Type) : Type := {
  scan : bytes → json_error + Value;
  json_Unmarshal : bytes → Dest → Dest * option error
}.
Arguments scan {Dest} _ _.
Arguments json_Unmarshal {Dest} _ _ _.

(** [json.Unmarshal(data, &dest)] with [dest] a fresh
    [map[string]*json.RawMessage]: no [UnmarshalJSON] is involved, so
    the error is one of encoding/json's own. *)
Definition Unmarshal_rawmap {Dest} (J : Library Dest) (data : bytes)
  : json_error + gmap string (option RawMessage) :=
  match scan J data with
  | inl err => inl err
  | inr val => rawmap_of val
  end.

Global Instance ValidationErrorType_eq_dec : EqDecision ValidationErrorType.
Proof. solve_decision. Defined.

Global Instance ValidationError_eq_dec : EqDecision ValidationError.
Proof. solve_decision. Defined.

(** ** Options *)

Record Options : Type := mkOptions {
  Pedantic : bool;
  Strict : bool;
  GlobalNullNotPresent : bool;
  FailFast : bool;
  NullNotPresent : list string;
  Required : list string;
  Forbidden : list string
}.

Record builtOptions : Type := mkBuiltOptions {
  embedded : Options;
  nullNotPresentSet : gmap string bool
}.

(** [prepareOptions] starts from the empty map and sets every key of
  [NullNotPresent] to [true]; the destination [v] is not used. *)
Definition prepareOptions {Dest} (o : Options) (v : Dest) : builtOptions :=
  {| embedded := o;
     nullNotPresentSet :=
       foldl (λ set k, <[k := true]> set) ∅ (NullNotPresent o) |}.

(** Indexing a Go map at a key it does not hold gives the zero value. *)
Definition index_bool (m : gmap string bool) (s : string) : bool :=
  default false (m !! s).

Definition nullIsPresent (bo : builtOptions) (s : string) : bool :=
  if GlobalNullNotPresent (embedded bo) then false
  else negb (index_bool (nullNotPresentSet bo) s).

(** ** The body of UnmarshalX *)

(** [v == nil] for a pointer. *)
Definition is_nil {A} (p : option A) : bool :=
  match p with None => true | Some _ => false end.

Section Validation.

Variable cfg : builtOptions.
Variable dest : gmap string (option RawMessage).

(** The closure [addError]: append, and answer whether to stop. *)
Definition addError (errs : list ValidationError) (ve : ValidationError)
  : list ValidationError * bool :=
  (errs ++ [ve], FailFast (embedded cfg)).

(** The closure [present], its [switch] read top to bottom. *)
Definition present (s : string) : bool :=
  match dest !! s with
  | None => false
  | Some v =>
      if is_nil v && GlobalNullNotPresent (embedded cfg) then false
      else if is_nil v && negb (nullIsPresent cfg s) then false
      else true
  end.

(** The loop over [cfg.Required].  The second component tells whether
    the loop left through [goto done]. *)
Fixpoint requiredLoop (keys : list string) (errs : list ValidationError)
  : list ValidationError * bool :=
  match keys with
  | [] => (errs, false)
  | reqKey :: rest =>
      if negb (present reqKey) then
        let '(errs', stop) := addError errs (mkValidationError MissingKey reqKey) in
        if stop then (errs', true) else requiredLoop rest errs'
      else requiredLoop rest errs
  end.

(** The loop over [cfg.Forbidden]. *)
Fixpoint forbiddenLoop (keys : list string) (errs : list ValidationError)
  : list ValidationError * bool :=
  match keys with
  | [] => (errs, false)
  | forbKey :: rest =>
      let '(errs', stop) := addError errs (mkValidationError ForbiddenKey forbKey) in
      if stop then (errs', true) else forbiddenLoop rest errs'
  end.

(** Both loops, up to the label [done]: the collected [errors]. *)
Definition collect : list ValidationError :=
  let '(errs, jumped) := requiredLoop (Required (embedded cfg)) [] in
  if jumped then errs
  else fst (forbiddenLoop (Forbidden (embedded cfg)) errs).

End Validation.

Section Unmarshalling.

Context {Dest : Type}.
Variable J : Library Dest.

(** The result of a call is the destination as the call leaves it
    together with the returned [error] ([None] for nil). *)
Definition UnmarshalX (data : bytes) (v : Dest) (pcfg : option Options)
  : Dest * option error :=
  match pcfg with
  | None => json_Unmarshal J data v
  | Some opts =>
      match Unmarshal_rawmap J data with
      | inl err => (v, Some (LibraryError err))
      | inr dest =>
          let cfg := prepareOptions opts v in
          let errs := collect cfg dest in
          if negb (length errs =? 0)%nat
          then (v, Some (OfErrorCollection (mkErrorCollection errs)))
          else json_Unmarshal J data v
      end
  end.

(** The package's own [Unmarshal]. *)
Definition Unmarshal (data : bytes) (v : Dest) : Dest * option error :=
  UnmarshalX data v None.

End Unmarshalling.

(** ** A library instance to run the package on

    The destination is a variable of type [interface{}] ([None] when nil),
    into which encoding/json stores the decoded tree.  The scanner knows
    the documents listed in [documents] and reports anything else as
    malformed. *)

Module Sample.

(** The double quote character. *)
Definition q : string :=
  String (Ascii.Ascii false true false false false true false false) EmptyString.

Definition doc (text : string) : bytes := String.list_byte_of_string text.

Definition text_bar : string := "{" +:+ q +:+ "bar" +:+ q +:+ ": 4444}".
Definition text_foo_bar : string :=
  "{" +:+ q +:+ "foo" +:+ q +:+ ": " +:+ q +:+ "foo" +:+ q +:+ ","
     +:+ q +:+ "bar" +:+ q +:+ ": 4444}".
Definition text_foo_null_bar : string :=
  "{" +:+ q +:+ "foo" +:+ q +:+ ": null," +:+ q +:+ "bar" +:+ q +:+ ": 4444}".
Definition text_k_null : string := "{" +:+ q +:+ "k" +:+ q +:+ ": null}".
Definition text_empty_object : string := "{}".
Definition text_null : string := "null".
Definition text_array : string := "[4444]".
Definition text_address_zip : string :=
  "{" +:+ q +:+ "address" +:+ q +:+ ": {" +:+ q +:+ "zip" +:+ q +:+ ": "
     +:+ q +:+ "94110" +:+ q +:+ "}}".
Definition text_address_empty : string :=
  "{" +:+ q +:+ "address" +:+ q +:+ ": {}}".
Definition text_zip : string :=
  "{" +:+ q +:+ "zip" +:+ q +:+ ": " +:+ q +:+ "94110" +:+ q +:+ "}".
Definition text_truncated : string := "{" +:+ q +:+ "bar" +:+ q +:+ ": ".

Definition documents : list (string * Value) :=
  [ (text_bar, VObject [("bar", VNumber "4444")]);
    (text_foo_bar, VObject [("foo", VString "foo"); ("bar", VNumber "4444")]);
    (text_foo_null_bar, VObject [("foo", VNull); ("bar", VNumber "4444")]);
    (text_k_null, VObject [("k", VNull)]);
    (text_empty_object, VObject []);
    (text_null, VNull);
    (text_array, VList [VNumber "4444"]);
    (text_address_zip, VObject [("address", VObject [("zip", VString "94110")])]);
    (text_address_empty, VObject [("address", VObject [])]);
    (text_zip, VObject [("zip", VString "94110")]) ].

Fixpoint find_document (text : string) (table : list (string * Value))
  : option Value :=
  match table with
  | [] => None
  | (t, val) :: rest => if String.eqb t text then Some val else find_document text rest
  end.

Definition sample_scan (data : bytes) : json_error + Value :=
  match find_document (String.string_of_list_byte data) documents with
  | Some val => inr val
  | None => inl (SyntaxError "unexpected end of JSON input")
  end.

(** Decoding into an [interface{}] variable: [null] makes it nil, any
    other value is stored; a malformed document leaves it alone. *)
Definition sample_Unmarshal (data : bytes) (v : option Value)
  : option Value * option error :=
  match sample_scan data with
  | inl err => (v, Some (LibraryError err))
  | inr val => (if is_null val then None else Some val, None)
  end.

Definition json : Library (option Value) :=
  {| scan := sample_scan; json_Unmarshal := sample_Unmarshal |}.

Definition no_options : Options :=
  {| Pedantic := false; Strict := false; GlobalNullNotPresent := false;
     FailFast := false; NullNotPresent := []; Required := []; Forbidden := [] |}.

Definition with_Required (keys : list string) (o : Options) : Options :=
  {| Pedantic := Pedantic o; Strict := Strict o;
     GlobalNullNotPresent := GlobalNullNotPresent o; FailFast := FailFast o;
     NullNotPresent := NullNotPresent o; Required := keys;
     Forbidden := Forbidden o |}.

Definition with_Forbidden (keys : list string) (o : Options) : Options :=
  {| Pedantic := Pedantic o; Strict := Strict o;
     GlobalNullNotPresent := GlobalNullNotPresent o; FailFast := FailFast o;
     NullNotPresent := NullNotPresent o; Required := Required o;
     Forbidden := keys |}.

Definition with_NullNotPresent (keys : list string) (o : Options) : Options :=
  {| Pedantic := Pedantic o; Strict := Strict o;
     GlobalNullNotPresent := GlobalNullNotPresent o; FailFast := FailFast o;
     NullNotPresent := keys; Required := Required o;
     Forbidden := Forbidden o |}.

(** A destination with rules of its own.  In Go:
    [type Address struct{...}] with
    [func (a *Address) UnmarshalJSON(b []byte) error] returning
    [UnmarshalX] of [b], of [a] seen through a method-less copy of the
    type, and of [&Options{Required: []string{"zip"}}],
    and [type Person struct{ Address Address }] with the field tagged
    [address].  [json.Unmarshal] into a [Person] hands the text of the
    [address] member to that method and returns the method's error
    unchanged.  [address_members] gives that text for the documents that
    have the member; the destination is the decoded address. *)
Definition address_members : list (string * string) :=
  [ (text_address_zip, text_zip);
    (text_address_empty, text_empty_object) ].

Fixpoint find_member (text : string) (table : list (string * string))
  : option string :=
  match table with
  | [] => None
  | (t, member) :: rest =>
      if String.eqb t text then Some member else find_member text rest
  end.

Definition Address_UnmarshalJSON (b : bytes) (a : option Value)
  : option Value * option error :=
  UnmarshalX json b a (Some (with_Required ["zip"] no_options)).

Definition person_Unmarshal (data : bytes) (v : option Value)
  : option Value * option error :=
  match sample_scan data with
  | inl err => (v, Some (LibraryError err))
  | inr _ =>
      match find_member (String.string_of_list_byte data) address_members with
      | Some member => Address_UnmarshalJSON (doc member) v
      | None => (v, None)
      end
  end.

Definition person_json : Library (option Value) :=
  {| scan := sample_scan; json_Unmarshal := person_Unmarshal |}.

End Sample.

(** [FailFast] set to [b], everything else as in [o]. *)
Definition with_FailFast (b : bool) (o : Options) : Options :=
  {| Pedantic := Pedantic o; Strict := Strict o;
     GlobalNullNotPresent := GlobalNullNotPresent o; FailFast := b;
     NullNotPresent := NullNotPresent o; Required := Required o;
     Forbidden := Forbidden o |}.

Definition with_GlobalNullNotPresent (b : bool) (o : Options) : Options :=
  {| Pedantic := Pedantic o; Strict := Strict o;
     GlobalNullNotPresent := b; FailFast := FailFast o;
     NullNotPresent := NullNotPresent o; Required := Required o;
     Forbidden := Forbidden o |}.

(** ** Reading a result *)

(** The violations a result carries: those of the [ErrorCollection] when
    the returned error is one, none otherwise. *)
Definition returned_violations {Dest} (r : Dest * option error)
  : list ValidationError :=
  match r.2 with
  | Some (OfErrorCollection ec) => errors ec
  | _ => []
  end.

(** Whether an [error] is one of the package's validation errors. *)
Definition is_validation_error (e : error) : bool :=
  match e with
  | LibraryError _ | OtherError _ => false
  | OfValidationError _ | OfErrorCollection _ => true
  end.

(** What the two loops report when nothing stops them, in the order they
    report it: a [MissingKey] for each key of [Required] that fails
    [present], in declaration order, then a [ForbiddenKey] for each key of
    [Forbidden], in declaration order, whether or not the object holds
    that key. *)
Definition reported (cfg : builtOptions) (dest : gmap string (option RawMessage))
  : list ValidationError :=
  map (mkValidationError MissingKey)
      (List.filter (λ k, negb (present cfg dest k)) (Required (embedded cfg)))
  ++ map (mkValidationError ForbiddenKey) (Forbidden (embedded cfg)).

(** Two maps hold the same top-level picture when they have the same keys
    and agree, key by key, on whether the member is [null]. *)
Definition same_top_level (d1 d2 : gmap string (option RawMessage)) : Prop :=
  ∀ k, is_nil <$> d1 !! k = is_nil <$> d2 !! k.

(** Whether the object holds the key at all, whatever its value. *)
Definition has_key (dest : gmap string (option RawMessage)) (k : string) : bool :=
  match dest !! k with
  | None => false
  | Some _ => true
  end.

(** ** UnmarshalX as a machine

    The same body once more, statement by statement, as transitions of a
    machine whose state is the program point together with the [errors]
    slice.  Nothing here is computed: a run is any sequence of
    transitions. *)

Inductive point : Type :=
| AtRequired (rest : list string)
| AtForbidden (rest : list string)
| AtDone.

Definition machine : Type := point * list ValidationError.

Inductive step (cfg : builtOptions) (dest : gmap string (option RawMessage))
  : machine → machine → Prop :=
| step_required_present k rest errs :
    present cfg dest k = true →
    step cfg dest (AtRequired (k :: rest), errs) (AtRequired rest, errs)
| step_required_jump k rest errs :
    present cfg dest k = false →
    FailFast (embedded cfg) = true →
    step cfg dest (AtRequired (k :: rest), errs)
                  (AtDone, errs ++ [mkValidationError MissingKey k])
| step_required_next k rest errs :
    present cfg dest k = false →
    FailFast (embedded cfg) = false →
    step cfg dest (AtRequired (k :: rest), errs)
                  (AtRequired rest, errs ++ [mkValidationError MissingKey k])
| step_required_end errs :
    step cfg dest (AtRequired [], errs)
                  (AtForbidden (Forbidden (embedded cfg)), errs)
| step_forbidden_jump k rest errs :
    FailFast (embedded cfg) = true →
    step cfg dest (AtForbidden (k :: rest), errs)
                  (AtDone, errs ++ [mkValidationError ForbiddenKey k])
| step_forbidden_next k rest errs :
    FailFast (embedded cfg) = false →
    step cfg dest (AtForbidden (k :: rest), errs)
                  (AtForbidden rest, errs ++ [mkValidationError ForbiddenKey k])
| step_forbidden_end errs :
    step cfg dest (AtForbidden [], errs) (AtDone, errs).

(** A call of [UnmarshalX] and a result it can end with. *)
Inductive returns {Dest} (J : Library Dest) (data : bytes) (v : Dest)
  : option Options → Dest * option error → Prop :=
| returns_plain :
    returns J data v None (json_Unmarshal J data v)
| returns_parse_error opts err :
    Unmarshal_rawmap J data = inl err →
    returns J data v (Some opts) (v, Some (LibraryError err))
| returns_collection opts dest errs :
    Unmarshal_rawmap J data = inr dest →
    rtc (step (prepareOptions opts v) dest)
        (AtRequired (Required opts), []) (AtDone, errs) →
    length errs ≠ 0 →
    returns J data v (Some opts)
            (v, Some (OfErrorCollection (mkErrorCollection errs)))
| returns_decoded opts dest errs :
    Unmarshal_rawmap J data = inr dest →
    rtc (step (prepareOptions opts v) dest)
        (AtRequired (Required opts), []) (AtDone, errs) →
    length errs = 0 →
    returns J data v (Some opts) (json_Unmarshal J data v).

(** ** Error messages *)

(** [ValidationErrorType] is an [int]; these are the values of its two
    [iota] constants. *)
Definition type_code (t : ValidationErrorType) : Z :=
  match t with
  | MissingKey => 0
  | ForbiddenKey => 1
  end.

(** [fmt.Sprintf] with a single [%s]: the text around the argument. *)
Definition missingKey (s : string) : string :=
  "required key <" +:+ s +:+ "> not found".

Definition forbiddenKey (s : string) : string :=
  "forbidden key <" +:+ s +:+ "> was set".

(** The body of [ValidationError.Error] for a struct whose [Type] field
    holds the integer [code]: the two constants are compared in turn and
    any other integer falls through to the last [Sprintf], where [%d]
    prints it in decimal. *)
Definition describe (code : Z) (key : string) : string :=
  if (code =? type_code MissingKey)%Z then missingKey key
  else if (code =? type_code ForbiddenKey)%Z then forbiddenKey key
  else "unexpected error type " +:+ pretty code +:+ " for key <" +:+ key +:+ ">".

(** [ValidationError.Error]. *)
Definition ValidationError_Error (ve : ValidationError) : string :=
  describe (type_code (Type_ ve)) (Key ve).

(** [strings.Join]: nothing for no element, the element itself for one,
    and otherwise the elements with [sep] between neighbours. *)
Fixpoint Join (elems : list string) (sep : string) : string :=
  match elems with
  | [] => EmptyString
  | e :: rest =>
      match rest with
      | [] => e
      | _ :: _ => e +:+ sep +:+ Join rest sep
      end
  end.

(** [ErrorCollection.Error]: each element's message, joined and put
    between the brackets. *)
Definition ErrorCollection_Error (e : ErrorCollection) : string :=
  "['" +:+ Join (map ValidationError_Error (errors e)) "', '" +:+ "']".

(** The character [c] does not occur in [s]. *)
Fixpoint free_of (c : Ascii.ascii) (s : string) : Prop :=
  match s with
  | EmptyString => True
  | String x rest => x ≠ c ∧ free_of c rest
  end.

(** The options with the two unsupported flags set as given. *)
Definition with_modes (pedantic strict : bool) (o : Options) : Options :=
  {| Pedantic := pedantic; Strict := strict;
     GlobalNullNotPresent := GlobalNullNotPresent o; FailFast := FailFast o;
     NullNotPresent := NullNotPresent o; Required := Required o;
     Forbidden := Forbidden o |}.

(** ** The loops, characterised *)

Section LoopFacts.

Variable cfg : builtOptions.
Variable dest : gmap string (option RawMessage).

Lemma requiredLoop_collects keys errs :
  FailFast (embedded cfg) = false →
  requiredLoop cfg dest keys errs
  = (errs ++ map (mkValidationError MissingKey)
               (List.filter (λ k, negb (present cfg dest k)) keys), false).
Proof.
  intros Hff. revert errs.
  induction keys as [|k rest IH]; intros errs; simpl.
  - by rewrite app_nil_r.
  - destruct (present cfg dest k); simpl.
    + apply IH.
    + unfold addError. rewrite Hff, IH. by rewrite <- app_assoc.
Qed.

Lemma forbiddenLoop_collects keys errs :
  FailFast (embedded cfg) = false →
  forbiddenLoop cfg keys errs
  = (errs ++ map (mkValidationError ForbiddenKey) keys, false).
Proof.
  intros Hff. revert errs.
  induction keys as [|k rest IH]; intros errs; simpl.
  - by rewrite app_nil_r.
  - unfold addError. rewrite Hff, IH. by rewrite <- app_assoc.
Qed.

Lemma requiredLoop_stops keys errs :
  FailFast (embedded cfg) = true →
  requiredLoop cfg dest keys errs
  = match List.filter (λ k, negb (present cfg dest k)) keys with
    | [] => (errs, false)
    | k :: _ => (errs ++ [mkValidationError MissingKey k], true)
    end.
Proof.
  intros Hff. revert errs.
  induction keys as [|k rest IH]; intros errs; simpl; [done|].
  destruct (present cfg dest k); simpl.
  - apply IH.
  - unfold addError. by rewrite Hff.
Qed.

Lemma forbiddenLoop_stops keys errs :
  FailFast (embedded cfg) = true →
  forbiddenLoop cfg keys errs
  = match keys with
    | [] => (errs, false)
    | k :: _ => (errs ++ [mkValidationError ForbiddenKey k], true)
    end.
Proof.
  intros Hff. destruct keys as [|k rest]; simpl; [done|].
  unfold addError. by rewrite Hff.
Qed.

Lemma collect_all :
  FailFast (embedded cfg) = false → collect cfg dest = reported cfg dest.
Proof.
  intros Hff. unfold collect, reported.
  rewrite requiredLoop_collects by done.
  rewrite forbiddenLoop_collects by done. done.
Qed.

Lemma collect_first :
  FailFast (embedded cfg) = true → collect cfg dest = take 1 (reported cfg dest).
Proof.
  intros Hff. unfold collect, reported.
  rewrite requiredLoop_stops by done.
  destruct (List.filter _ (Required (embedded cfg))) as [|k ks]; simpl.
  - rewrite forbiddenLoop_stops by done.
    by destruct (Forbidden (embedded cfg)).
  - done.
Qed.

End LoopFacts.

(** ** The package's tests

    The cases of [json_test.go], run on the sample library. *)

Example TestUnmarshalXNoOpts :
  UnmarshalX Sample.json (Sample.doc Sample.text_foo_bar) None
    (Some Sample.no_options)
  = (Some (VObject [("foo", VString "foo"); ("bar", VNumber "4444")]), None).
Proof. reflexivity. Qed.

Example TestUnmarshalXRejectBar :
  (UnmarshalX Sample.json (Sample.doc Sample.text_foo_bar) None
     (Some (Sample.with_Forbidden ["bar"] Sample.no_options))).2
  = Some (OfErrorCollection
            {| errors := [mkValidationError ForbiddenKey "bar"] |}).
Proof. reflexivity. Qed.

Example TestUnmarshalXRejectBarRequireFoo :
  (UnmarshalX Sample.json (Sample.doc Sample.text_bar) None
     (Some (Sample.with_Required ["foo"]
              (Sample.with_Forbidden ["bar"] Sample.no_options)))).2
  = Some (OfErrorCollection
            {| errors := [mkValidationError MissingKey "foo";
                          mkValidationError ForbiddenKey "bar"] |}).
Proof. reflexivity. Qed.

Example TestUnmarshalXRejectBarRequireFooFailFast :
  (UnmarshalX Sample.json (Sample.doc Sample.text_bar) None
     (Some (with_FailFast true
              (Sample.with_Required ["foo"]
                 (Sample.with_Forbidden ["bar"] Sample.no_options))))).2
  = Some (OfErrorCollection
            {| errors := [mkValidationError MissingKey "foo"] |}).
Proof. reflexivity. Qed.

Example TestUnmarshalXNullNotPresent :
  (UnmarshalX Sample.json (Sample.doc Sample.text_foo_null_bar) None
     (Some (Sample.with_Required ["foo"]
              (Sample.with_NullNotPresent ["foo"] Sample.no_options)))).2
  = Some (OfErrorCollection
            {| errors := [mkValidationError MissingKey "foo"] |}).
Proof. reflexivity. Qed.

Example TestUnmarshalXGlobalNullNotPresentForbiddenNoFailFast :
  (UnmarshalX Sample.json (Sample.doc Sample.text_foo_null_bar) None
     (Some (with_GlobalNullNotPresent true
              (Sample.with_Required ["foo"]
                 (Sample.with_Forbidden ["bar"] Sample.no_options))))).2
  = Some (OfErrorCollection
            {| errors := [mkValidationError MissingKey "foo";
                          mkValidationError ForbiddenKey "bar"] |}).
Proof. reflexivity. Qed.

(** ** Prepared options *)

Lemma nullNotPresentSet_lookup (keys : list string) (init : gmap string bool) k :
  foldl (λ set k, <[k := true]> set) init keys !! k
  = if bool_decide (k ∈ keys) then Some true else init !! k.
Proof.
  revert init. induction keys as [|k' rest IH]; intros init; simpl; [done|].
  rewrite IH. destruct (decide (k = k')) as [->|Hne].
  - rewrite lookup_insert_eq.
    rewrite (bool_decide_eq_true_2 (k' ∈ k' :: rest)) by apply list_elem_of_here.
    by case_bool_decide.
  - rewrite lookup_insert_ne by done.
    rewrite (bool_decide_ext (k ∈ k' :: rest) (k ∈ rest)); [done|].
    rewrite elem_of_cons. split; [by intros [?|?] | by right].
Qed.

Lemma nullIsPresent_prepared {Dest} (o : Options) (v : Dest) k :
  nullIsPresent (prepareOptions o v) k
  = negb (GlobalNullNotPresent o) && negb (bool_decide (k ∈ NullNotPresent o)).
Proof.
  unfold nullIsPresent, index_bool, prepareOptions; simpl.
  destruct (GlobalNullNotPresent o); [done|]. simpl.
  rewrite nullNotPresentSet_lookup, lookup_empty.
  by case_bool_decide.
Qed.

(** [present], spelled out on the caller's options. *)
Lemma present_prepared {Dest} (o : Options) (v : Dest) dest k :
  present (prepareOptions o v) dest k
  = match dest !! k with
    | None => false
    | Some None =>
        negb (GlobalNullNotPresent o) && negb (bool_decide (k ∈ NullNotPresent o))
    | Some (Some _) => true
    end.
Proof.
  unfold present. destruct (dest !! k) as [[raw|]|]; simpl; [done| |done].
  rewrite nullIsPresent_prepared. simpl.
  by destruct (GlobalNullNotPresent o), (bool_decide _).
Qed.

Lemma present_same_top_level cfg d1 d2 k :
  same_top_level d1 d2 → present cfg d1 k = present cfg d2 k.
Proof.
  intros Hsame. specialize (Hsame k). unfold present.
  destruct (d1 !! k) as [p1|], (d2 !! k) as [p2|]; simpl in Hsame;
    try done.
  injection Hsame as Hnil. by rewrite Hnil.
Qed.

Lemma present_with_FailFast {Dest} b (o : Options) (v : Dest) dest k :
  present (prepareOptions (with_FailFast b o) v) dest k
  = present (prepareOptions o v) dest k.
Proof. by rewrite !present_prepared. Qed.

Lemma reported_with_FailFast {Dest} b (o : Options) (v : Dest) dest :
  reported (prepareOptions (with_FailFast b o) v) dest
  = reported (prepareOptions o v) dest.
Proof. done. Qed.

(** ** The call as a whole *)

Section CallFacts.

Context {Dest : Type}.
Variable J : Library Dest.

Lemma UnmarshalX_validated data v o dest :
  Unmarshal_rawmap J data = inr dest →
  UnmarshalX J data v (Some o)
  = match collect (prepareOptions o v) dest with
    | [] => json_Unmarshal J data v
    | errs => (v, Some (OfErrorCollection (mkErrorCollection errs)))
    end.
Proof.
  intros Hmap. unfold UnmarshalX. rewrite Hmap.
  by destruct (collect (prepareOptions o v) dest).
Qed.

(** When the loops collected anything, the call returns just that. *)
Lemma returned_violations_collected data v o dest :
  Unmarshal_rawmap J data = inr dest →
  collect (prepareOptions o v) dest ≠ [] →
  returned_violations (UnmarshalX J data v (Some o))
  = collect (prepareOptions o v) dest.
Proof.
  intros Hmap Hne. rewrite (UnmarshalX_validated _ _ _ _ Hmap).
  by destruct (collect (prepareOptions o v) dest) as [|e errs].
Qed.

End CallFacts.

(** ** The machine is the function *)

Section MachineFacts.

Variable cfg : builtOptions.
Variable dest : gmap string (option RawMessage).

Lemma step_deterministic : deterministic (step cfg dest).
Proof.
  intros s s1 s2 H1 H2.
  destruct H1; inversion H2; subst; congruence.
Qed.

Lemma done_is_final errs : nf (step cfg dest) (AtDone, errs).
Proof. intros [s Hs]. inversion Hs. Qed.

Lemma runs_end_alike s errs1 errs2 :
  rtc (step cfg dest) s (AtDone, errs1) →
  rtc (step cfg dest) s (AtDone, errs2) →
  errs1 = errs2.
Proof.
  intros R1 R2.
  assert ((AtDone, errs1) = (AtDone, errs2) :> machine) as Heq.
  { eapply (confluent_rtc_nf (R := step cfg dest));
      eauto using deterministic_confluent, step_deterministic, done_is_final. }
  congruence.
Qed.

Lemma forbidden_runs keys errs :
  rtc (step cfg dest) (AtForbidden keys, errs)
      (AtDone, (forbiddenLoop cfg keys errs).1).
Proof.
  revert errs. induction keys as [|k rest IH]; intros errs; simpl.
  - apply rtc_once. constructor.
  - unfold addError. destruct (FailFast (embedded cfg)) eqn:Hff; simpl.
    + apply rtc_once. by constructor.
    + eapply rtc_l; [by apply step_forbidden_next | apply IH].
Qed.

Lemma required_runs keys errs :
  rtc (step cfg dest) (AtRequired keys, errs)
      (AtDone,
       let '(errs', jumped) := requiredLoop cfg dest keys errs in
       if jumped then errs'
       else (forbiddenLoop cfg (Forbidden (embedded cfg)) errs').1).
Proof.
  revert errs. induction keys as [|k rest IH]; intros errs; simpl.
  - eapply rtc_l; [constructor | apply forbidden_runs].
  - destruct (present cfg dest k) eqn:Hp; simpl.
    + eapply rtc_l; [by constructor | apply IH].
    + unfold addError. destruct (FailFast (embedded cfg)) eqn:Hff.
      * apply rtc_once. by constructor.
      * eapply rtc_l; [by apply step_required_next | apply IH].
Qed.

Lemma collect_runs :
  rtc (step cfg dest) (AtRequired (Required (embedded cfg)), [])
      (AtDone, collect cfg dest).
Proof.
  unfold collect. pose proof (required_runs (Required (embedded cfg)) []) as R.
  by destruct (requiredLoop cfg dest (Required (embedded cfg)) []) as [errs []].
Qed.

Lemma runs_reach_collect errs :
  rtc (step cfg dest) (AtRequired (Required (embedded cfg)), []) (AtDone, errs) →
  errs = collect cfg dest.
Proof. intros R. eapply runs_end_alike; [exact R | apply collect_runs]. Qed.

End MachineFacts.

Lemma UnmarshalX_returns {Dest} (J : Library Dest) data v pcfg :
  returns J data v pcfg (UnmarshalX J data v pcfg).
Proof.
  destruct pcfg as [o|]; [|constructor].
  unfold UnmarshalX.
  destruct (Unmarshal_rawmap J data) as [err|dest] eqn:Hmap; [by constructor|].
  pose proof (collect_runs (prepareOptions o v) dest) as R. simpl in R.
  destruct (collect (prepareOptions o v) dest) as [|e errs] eqn:Hc; simpl.
  - by eapply returns_decoded.
  - by eapply returns_collection.
Qed.

Lemma returns_UnmarshalX {Dest} (J : Library Dest) data v pcfg r :
  returns J data v pcfg r → r = UnmarshalX J data v pcfg.
Proof.
  intros Hr. destruct Hr as [|o err Hmap|o dest errs Hmap R Hlen|o dest errs Hmap R Hlen].
  - done.
  - unfold UnmarshalX. by rewrite Hmap.
  - apply runs_reach_collect in R. simpl in R.
    rewrite (UnmarshalX_validated _ _ _ _ _ Hmap), <- R.
    by destruct errs.
  - apply runs_reach_collect in R. simpl in R.
    rewrite (UnmarshalX_validated _ _ _ _ _ Hmap), <- R.
    by destruct errs.
Qed.

(** ** Violations withhold the decode *)

(** C3. Whenever the collected errors are not empty, [UnmarshalX] returns
    them as an [ErrorCollection] and hands the destination back exactly as
    it received it.  This holds for every library, whatever its typed
    decode would have written: the typed decode is not run, not even in
    part. *)
Theorem violations_withhold_decode {Dest} (J : Library Dest) data v o dest :
  Unmarshal_rawmap J data = inr dest →
  collect (prepareOptions o v) dest ≠ [] →
  UnmarshalX J data v (Some o)
  = (v, Some (OfErrorCollection
                (mkErrorCollection (collect (prepareOptions o v) dest)))).
Proof.
  intros Hmap Hne. rewrite (UnmarshalX_validated _ _ _ _ _ Hmap).
  by destruct (collect (prepareOptions o v) dest).
Qed.

(** An instance: the plain decode of [{"bar": 4444}] would store the
    object, yet with a missing and a forbidden key the destination stays
    nil. *)
Lemma violations_withhold_decode_witness :
  let o := Sample.with_Required ["foo"]
             (Sample.with_Forbidden ["bar"] Sample.no_options) in
  (Sample.json.(json_Unmarshal) (Sample.doc Sample.text_bar) None).1
    = Some (VObject [("bar", VNumber "4444")])
  ∧ UnmarshalX Sample.json (Sample.doc Sample.text_bar) None (Some o)
    = (None, Some (OfErrorCollection
                     {| errors := [mkValidationError MissingKey "foo";
                                   mkValidationError ForbiddenKey "bar"] |})).
Proof.
  cbv zeta. split; [reflexivity|].
  refine (violations_withhold_decode Sample.json (Sample.doc Sample.text_bar) None
            (Sample.with_Required ["foo"]
               (Sample.with_Forbidden ["bar"] Sample.no_options))
            (store_members [("bar", VNumber "4444")]) eq_refl _).
  vm_compute. discriminate.
Defined.

(** ** Forbidden keys *)

(** Without fail-fast the forbidden loop reports every key of [Forbidden],
    whatever the object holds: it never consults [present] or [dest]. *)
Lemma forbidden_reported_regardless {Dest} (o : Options) (v : Dest) dest k :
  FailFast o = false →
  k ∈ Forbidden o →
  mkValidationError ForbiddenKey k ∈ collect (prepareOptions o v) dest.
Proof.
  intros Hff Hk. rewrite collect_all by done. unfold reported.
  apply elem_of_app. right. simpl.
  apply list_elem_of_In, in_map, list_elem_of_In, Hk.
Qed.

(** C1, evaluated where the code departs from it.  The document
    [{"bar": 4444}] has no key [foo], yet with [Forbidden = ["foo"]] the
    call returns the collection holding [ForbiddenKey foo]. *)
Theorem forbidden_key_reported_when_absent :
  Unmarshal_rawmap Sample.json (Sample.doc Sample.text_bar)
    = inr (store_members [("bar", VNumber "4444")])
  ∧ has_key (store_members [("bar", VNumber "4444")]) "foo" = false
  ∧ UnmarshalX Sample.json (Sample.doc Sample.text_bar) None
      (Some (Sample.with_Forbidden ["foo"] Sample.no_options))
    = (None, Some (OfErrorCollection
                     {| errors := [mkValidationError ForbiddenKey "foo"] |})).
Proof. repeat split; vm_compute; reflexivity. Qed.

(** ** Fail-fast *)

(** C4, evaluated where the code departs from it.  The document
    [{"bar": 4444}] holds [bar] and not [foo]; with [FailFast] and
    [Forbidden = ["foo"; "bar"]] the first violation in traversal order
    is the one of [bar], yet the call stops at [foo] and returns
    [ForbiddenKey foo] alone.  The defect is the one of C1: the loop over
    [Forbidden] does not look at the document. *)
Theorem fail_fast_stops_at_absent_forbidden_key :
  Unmarshal_rawmap Sample.json (Sample.doc Sample.text_bar)
    = inr (store_members [("bar", VNumber "4444")])
  ∧ has_key (store_members [("bar", VNumber "4444")]) "foo" = false
  ∧ has_key (store_members [("bar", VNumber "4444")]) "bar" = true
  ∧ UnmarshalX Sample.json (Sample.doc Sample.text_bar) None
      (Some (with_FailFast true
               (Sample.with_Forbidden ["foo"; "bar"] Sample.no_options)))
    = (None, Some (OfErrorCollection
                     {| errors := [mkValidationError ForbiddenKey "foo"] |})).
Proof. repeat split; vm_compute; reflexivity. Qed.

(** Fail-fast against the full run.  If the loops of the same call
    without fail-fast report anything, the call with [FailFast] returns
    the first of those reports alone.  The reports are the failing keys
    of [Required] in declaration order, then every key of [Forbidden]
    in declaration order, held by the document or not. *)
Theorem fail_fast_keeps_first_report {Dest} (J : Library Dest)
    data v o dest first others :
  Unmarshal_rawmap J data = inr dest →
  FailFast o = true →
  collect (prepareOptions (with_FailFast false o) v) dest = first :: others →
  UnmarshalX J data v (Some o)
    = (v, Some (OfErrorCollection (mkErrorCollection [first])))
  ∧ first :: others
    = map (mkValidationError MissingKey)
        (List.filter (λ k, negb (present (prepareOptions o v) dest k))
           (Required o))
      ++ map (mkValidationError ForbiddenKey) (Forbidden o).
Proof.
  intros Hmap Hff Hall.
  rewrite collect_all in Hall by done.
  rewrite reported_with_FailFast in Hall.
  split; [|done].
  rewrite (UnmarshalX_validated _ _ _ _ _ Hmap).
  rewrite collect_first by done.
  by rewrite Hall.
Qed.

(** An instance: [foo] required and missing, [bar] forbidden; fail-fast
    keeps the [MissingKey] alone. *)
Lemma fail_fast_keeps_first_report_witness :
  let o := with_FailFast true
             (Sample.with_Required ["foo"]
                (Sample.with_Forbidden ["bar"] Sample.no_options)) in
  collect (prepareOptions (with_FailFast false o) (None : option Value))
    (store_members [("bar", VNumber "4444")])
    = [mkValidationError MissingKey "foo"; mkValidationError ForbiddenKey "bar"]
  ∧ UnmarshalX Sample.json (Sample.doc Sample.text_bar) None (Some o)
    = (None, Some (OfErrorCollection
                     {| errors := [mkValidationError MissingKey "foo"] |})).
Proof.
  cbv zeta. split; [reflexivity|].
  refine (proj1 (fail_fast_keeps_first_report Sample.json
                   (Sample.doc Sample.text_bar) None
                   (with_FailFast true
                      (Sample.with_Required ["foo"]
                         (Sample.with_Forbidden ["bar"] Sample.no_options)))
                   (store_members [("bar", VNumber "4444")])
                   (mkValidationError MissingKey "foo")
                   [mkValidationError ForbiddenKey "bar"]
                   eq_refl eq_refl eq_refl)).
Defined.

(** ** Required keys that are absent *)

Lemma absent_not_present cfg dest k :
  has_key dest k = false → present cfg dest k = false.
Proof. unfold has_key, present. by destruct (dest !! k). Qed.

Lemma missing_of_absent cfg dest keys :
  List.filter (λ ve, negb (has_key dest (Key ve)))
    (map (mkValidationError MissingKey)
       (List.filter (λ k, negb (present cfg dest k)) keys))
  = map (mkValidationError MissingKey)
      (List.filter (λ k, negb (has_key dest k)) keys).
Proof.
  induction keys as [|k rest IH]; simpl; [done|].
  destruct (has_key dest k) eqn:Hk; simpl.
  - destruct (present cfg dest k); simpl; [done|]. by rewrite Hk.
  - rewrite (absent_not_present cfg _ _ Hk). simpl. by rewrite Hk, IH.
Qed.

Lemma failing_key_listed cfg dest k keys :
  k ∈ keys → present cfg dest k = false →
  mkValidationError MissingKey k
    ∈ map (mkValidationError MissingKey)
        (List.filter (λ k, negb (present cfg dest k)) keys).
Proof.
  intros Hk Hp. apply list_elem_of_In, in_map, filter_In.
  split; [by apply list_elem_of_In | by rewrite Hp].
Qed.

(** C6. Without fail-fast the collected errors are the failing keys of
    [Required] in declaration order followed by the [ForbiddenKey]
    entries, so every [MissingKey] stands before every [ForbiddenKey];
    whenever anything was collected these are the violations the call
    returns; among them each required key the object does not hold has its
    [MissingKey], one per occurrence and in declaration order; as soon as
    one required key is absent the call returns that collection; and a key
    listed in both sets gets both entries, [MissingKey] first. *)
Theorem missing_keys_reported_in_order {Dest} (J : Library Dest) data v o dest :
  Unmarshal_rawmap J data = inr dest →
  FailFast o = false →
  let errs := collect (prepareOptions o v) dest in
  let missing :=
    map (mkValidationError MissingKey)
      (List.filter (λ k, negb (present (prepareOptions o v) dest k)) (Required o)) in
  let forbidden := map (mkValidationError ForbiddenKey) (Forbidden o) in
  errs = missing ++ forbidden
  ∧ (errs ≠ [] → returned_violations (UnmarshalX J data v (Some o)) = errs)
  ∧ List.filter (λ ve, negb (has_key dest (Key ve))) missing
    = map (mkValidationError MissingKey)
        (List.filter (λ k, negb (has_key dest k)) (Required o))
  ∧ (∀ k, k ∈ Required o → has_key dest k = false →
       UnmarshalX J data v (Some o)
       = (v, Some (OfErrorCollection (mkErrorCollection errs))))
  ∧ (∀ k, k ∈ Required o → k ∈ Forbidden o →
       present (prepareOptions o v) dest k = false →
       ∃ i j, i < j
         ∧ errs !! i = Some (mkValidationError MissingKey k)
         ∧ errs !! j = Some (mkValidationError ForbiddenKey k)).
Proof.
  intros Hmap Hff errs missing forbidden.
  assert (errs = missing ++ forbidden) as Herrs.
  { subst errs. by rewrite collect_all. }
  split; [done|].
  split; [by apply returned_violations_collected|].
  split; [apply missing_of_absent|]. split.
  - intros k Hk Habs.
    assert (mkValidationError MissingKey k ∈ errs) as Hin.
    { rewrite Herrs. apply elem_of_app. left.
      apply failing_key_listed; [done | by apply absent_not_present]. }
    clear Herrs. subst errs.
    rewrite (UnmarshalX_validated _ _ _ _ _ Hmap).
    destruct (collect (prepareOptions o v) dest); [|done].
    by apply not_elem_of_nil in Hin.
  - intros k Hreq Hforb Hp. rewrite Herrs.
    assert (mkValidationError MissingKey k ∈ missing) as Hm
      by by apply failing_key_listed.
    assert (mkValidationError ForbiddenKey k ∈ forbidden) as Hf
      by by apply list_elem_of_In, in_map, list_elem_of_In.
    apply list_elem_of_lookup in Hm as [i Hi].
    apply list_elem_of_lookup in Hf as [j Hj].
    pose proof (lookup_lt_Some _ _ _ Hi) as Hlt.
    exists i, (length missing + j). split; [lia|]. split.
    + by rewrite lookup_app_l.
    + rewrite lookup_app_r by lia.
      by replace (length missing + j - length missing) with j by lia.
Qed.

(** An instance: [foo] required and absent, [bar] forbidden. *)
Lemma missing_keys_reported_in_order_witness :
  let o := Sample.with_Required ["foo"]
             (Sample.with_Forbidden ["bar"] Sample.no_options) in
  has_key (store_members [("bar", VNumber "4444")]) "foo" = false
  ∧ UnmarshalX Sample.json (Sample.doc Sample.text_bar) None (Some o)
    = (None, Some (OfErrorCollection
                     {| errors := [mkValidationError MissingKey "foo";
                                   mkValidationError ForbiddenKey "bar"] |})).
Proof.
  cbv zeta. split; [reflexivity|].
  refine (proj1 (proj2 (proj2 (proj2
            (missing_keys_reported_in_order Sample.json
               (Sample.doc Sample.text_bar) None
               (Sample.with_Required ["foo"]
                  (Sample.with_Forbidden ["bar"] Sample.no_options))
               (store_members [("bar", VNumber "4444")]) eq_refl eq_refl))))
            "foo" _ eq_refl).
  apply list_elem_of_here.
Defined.

(** ** One layer only *)

Lemma requiredLoop_same_top_level cfg d1 d2 keys errs :
  same_top_level d1 d2 →
  requiredLoop cfg d1 keys errs = requiredLoop cfg d2 keys errs.
Proof.
  intros Hsame. revert errs.
  induction keys as [|k rest IH]; intros errs; simpl; [done|].
  rewrite (present_same_top_level cfg d1 d2 k Hsame).
  destruct (present cfg d2 k); simpl; [apply IH|].
  unfold addError. destruct (FailFast (embedded cfg)); [done|apply IH].
Qed.

Lemma collect_same_top_level cfg d1 d2 :
  same_top_level d1 d2 → collect cfg d1 = collect cfg d2.
Proof.
  intros Hsame. unfold collect.
  by rewrite (requiredLoop_same_top_level cfg d1 d2 _ _ Hsame).
Qed.

Lemma collect_within_reported cfg dest ve :
  ve ∈ collect cfg dest → ve ∈ reported cfg dest.
Proof.
  destruct (FailFast (embedded cfg)) eqn:Hff.
  - rewrite collect_first by done. intros Hin.
    rewrite <- (take_drop 1 (reported cfg dest)).
    apply elem_of_app. by left.
  - by rewrite collect_all.
Qed.

Lemma reported_names_listed_key cfg dest ve :
  ve ∈ reported cfg dest →
  (Type_ ve = MissingKey ∧ Key ve ∈ Required (embedded cfg)
     ∧ present cfg dest (Key ve) = false)
  ∨ (Type_ ve = ForbiddenKey ∧ Key ve ∈ Forbidden (embedded cfg)).
Proof.
  unfold reported. intros [Hin|Hin]%elem_of_app.
  - left. apply list_elem_of_In, in_map_iff in Hin as (k & <- & Hk).
    apply filter_In in Hk as [Hk Hp]. simpl.
    split; [done|]. split; [by apply list_elem_of_In|].
    by destruct (present cfg dest k).
  - right. apply list_elem_of_In, in_map_iff in Hin as (k & <- & Hk).
    simpl. split; [done | by apply list_elem_of_In].
Qed.

(** The two address documents: the same single top-level key, not null in
    either; they differ inside the nested object only. *)
Lemma address_documents_same_top_level :
  same_top_level
    (store_members [("address", VObject [])])
    (store_members [("address", VObject [("zip", VString "94110")])]).
Proof.
  intros k. unfold store_members. simpl.
  destruct (decide (k = "address")) as [->|Hne].
  - by rewrite !lookup_insert_eq.
  - by rewrite !lookup_insert_ne.
Qed.

(** C2, as the code has it.  [UnmarshalX] itself validates one layer
    only.  The errors it collects are the same for any two documents
    whose outermost objects hold the same keys with the same nullness,
    whatever nested objects contain; each is a [MissingKey] naming a key
    of [Required] or a [ForbiddenKey] naming a key of [Forbidden], the
    bare key with no path; and when it collects none, the call returns
    what [json.Unmarshal] returns, unchanged, so an error from a nested
    scope comes back as the inner call made it. *)
Theorem validation_is_single_layer {Dest} (J : Library Dest)
    data1 data2 (v1 v2 : Dest) o d1 d2 :
  Unmarshal_rawmap J data1 = inr d1 →
  Unmarshal_rawmap J data2 = inr d2 →
  same_top_level d1 d2 →
  collect (prepareOptions o v1) d1 = collect (prepareOptions o v2) d2
  ∧ (∀ ve, ve ∈ collect (prepareOptions o v1) d1 →
       (Type_ ve = MissingKey ∧ Key ve ∈ Required o)
       ∨ (Type_ ve = ForbiddenKey ∧ Key ve ∈ Forbidden o))
  ∧ UnmarshalX J data1 v1 (Some o)
    = match collect (prepareOptions o v1) d1 with
      | [] => json_Unmarshal J data1 v1
      | errs => (v1, Some (OfErrorCollection (mkErrorCollection errs)))
      end.
Proof.
  intros H1 H2 Hsame. split; [|split].
  - by apply (collect_same_top_level (prepareOptions o v1)).
  - intros ve Hin%collect_within_reported%reported_names_listed_key.
    simpl in Hin. tauto.
  - by apply UnmarshalX_validated.
Qed.

(** An instance: the two address documents under options that require
    [address] and [zip]. *)
Lemma validation_is_single_layer_witness :
  let o := Sample.with_Required ["address"; "zip"] Sample.no_options in
  collect (prepareOptions o (None : option Value))
    (store_members [("address", VObject [])])
  = collect (prepareOptions o (None : option Value))
      (store_members [("address", VObject [("zip", VString "94110")])]).
Proof.
  cbv zeta.
  exact (proj1 (validation_is_single_layer Sample.json
                  (Sample.doc Sample.text_address_empty)
                  (Sample.doc Sample.text_address_zip) None None
                  (Sample.with_Required ["address"; "zip"] Sample.no_options)
                  _ _ eq_refl eq_refl address_documents_same_top_level)).
Defined.

(** C2 as stated fails.  In [{"address": {}}] the nested object lacks
    [zip].  Decoded into the destination whose address has the rule of
    its own, the call returns the inner call's collection: the violation
    names [zip] and nothing in it names [address].  And rules given to
    the outer call do not reach inside: requiring [zip] there reports it
    missing from [{"address": {"zip": "94110"}}], whose nested object
    holds it. *)
Lemma nested_violation_has_no_path :
  UnmarshalX Sample.person_json (Sample.doc Sample.text_address_empty) None
    (Some Sample.no_options)
  = (None, Some (OfErrorCollection
                   {| errors := [mkValidationError MissingKey "zip"] |}))
  ∧ map Key
      (returned_violations
         (UnmarshalX Sample.person_json
            (Sample.doc Sample.text_address_empty) None
            (Some Sample.no_options)))
    = ["zip"]
  ∧ UnmarshalX Sample.json (Sample.doc Sample.text_address_zip) None
      (Some (Sample.with_Required ["zip"] Sample.no_options))
    = (None, Some (OfErrorCollection
                     {| errors := [mkValidationError MissingKey "zip"] |})).
Proof. repeat split. Qed.

(** ** Null and presence *)

Lemma filter_nil_iff {A} (f : A → bool) (l : list A) :
  List.filter f l = [] ↔ ∀ x, x ∈ l → f x = false.
Proof.
  induction l as [|a l IH]; simpl.
  - split; [|done]. intros _ x Hx. by apply not_elem_of_nil in Hx.
  - destruct (f a) eqn:Hfa.
    + split; [done|]. intros Hall.
      specialize (Hall a (list_elem_of_here _ _)). congruence.
    + rewrite IH. split.
      * intros Hall x [->|Hx]%elem_of_cons; [done | by apply Hall].
      * intros Hall x Hx. apply Hall. by apply list_elem_of_further.
Qed.

Lemma first_failing {A} (f : A → bool) (keys : list A) k :
  k ∈ keys → f k = false →
  ∃ before k' after,
    keys = before ++ k' :: after
    ∧ (∀ x, x ∈ before → f x = true)
    ∧ f k' = false.
Proof.
  induction keys as [|a rest IH]; intros Hin Hk.
  - by apply not_elem_of_nil in Hin.
  - destruct (f a) eqn:Hfa.
    + apply elem_of_cons in Hin as [->|Hin]; [congruence|].
      destruct (IH Hin Hk) as (before & k' & after & -> & Hbefore & Hk').
      exists (a :: before), k', after. split; [done|]. split; [|done].
      intros x [->|Hx]%elem_of_cons; [done | by apply Hbefore].
    + exists [], a, rest. split; [done|]. split; [|done].
      intros x Hx. by apply not_elem_of_nil in Hx.
Qed.

Lemma collect_first_failing cfg dest before k after :
  FailFast (embedded cfg) = true →
  Required (embedded cfg) = before ++ k :: after →
  (∀ x, x ∈ before → present cfg dest x = true) →
  present cfg dest k = false →
  collect cfg dest = [mkValidationError MissingKey k].
Proof.
  intros Hff Hreq Hbefore Hk. rewrite collect_first by done.
  unfold reported. rewrite Hreq, List.filter_app.
  replace (List.filter _ before) with (@nil string).
  - simpl. by rewrite Hk.
  - symmetry. apply filter_nil_iff. intros x Hx. by rewrite (Hbefore x Hx).
Qed.

(** C5, as the code has it.  Let the object hold [k] with the value
    [null] and let [k] be listed in [Required].  If [k] is not in
    [NullNotPresent] and [GlobalNullNotPresent] is off, [k] counts as
    present and the call collects no [MissingKey] for [k].  If [k] is in
    [NullNotPresent], or [GlobalNullNotPresent] is on whatever
    [NullNotPresent] lists, [k] counts as absent and the call returns the
    collected errors: without fail-fast they hold the [MissingKey] of
    [k]; with fail-fast they are the one [MissingKey] of the first key of
    [Required] that fails the presence test, which is the one of [k]
    exactly when that key is [k].  In every case the call returns the
    collected errors when there are any and otherwise what
    [json.Unmarshal] returns. *)
Theorem null_presence_policy {Dest} (J : Library Dest) data (v : Dest)
    o dest k :
  Unmarshal_rawmap J data = inr dest →
  dest !! k = Some None →
  k ∈ Required o →
  let cfg := prepareOptions o v in
  let errs := collect cfg dest in
  (GlobalNullNotPresent o = false → k ∉ NullNotPresent o →
     present cfg dest k = true ∧ mkValidationError MissingKey k ∉ errs)
  ∧ (k ∈ NullNotPresent o ∨ GlobalNullNotPresent o = true →
     present cfg dest k = false
     ∧ UnmarshalX J data v (Some o)
       = (v, Some (OfErrorCollection (mkErrorCollection errs)))
     ∧ (FailFast o = false → mkValidationError MissingKey k ∈ errs)
     ∧ (FailFast o = true →
        ∃ before k' after,
          Required o = before ++ k' :: after
          ∧ (∀ x, x ∈ before → present cfg dest x = true)
          ∧ present cfg dest k' = false
          ∧ errs = [mkValidationError MissingKey k']
          ∧ (mkValidationError MissingKey k ∈ errs ↔ k' = k)))
  ∧ UnmarshalX J data v (Some o)
    = match errs with
      | [] => json_Unmarshal J data v
      | _ => (v, Some (OfErrorCollection (mkErrorCollection errs)))
      end.
Proof.
  intros Hmap Hnull Hreq cfg errs.
  assert (present cfg dest k
          = negb (GlobalNullNotPresent o)
            && negb (bool_decide (k ∈ NullNotPresent o))) as Hp.
  { subst cfg. by rewrite present_prepared, Hnull. }
  pose proof (UnmarshalX_validated J data v o dest Hmap) as Hcall.
  fold cfg in Hcall. fold errs in Hcall.
  split; [|split].
  - intros Hglobal Hnot. split.
    + rewrite Hp, Hglobal. by rewrite bool_decide_eq_false_2.
    + intros [Hin|Hin]%collect_within_reported%reported_names_listed_key.
      * simpl in Hin. destruct Hin as (_ & _ & Hfalse).
        rewrite Hp, Hglobal, bool_decide_eq_false_2 in Hfalse by done. done.
      * by destruct Hin.
  - intros Hpolicy.
    assert (present cfg dest k = false) as Hfalse.
    { rewrite Hp. destruct Hpolicy as [Hin|Hglobal].
      - rewrite bool_decide_eq_true_2 by done. apply andb_false_r.
      - by rewrite Hglobal. }
    assert (FailFast o = true →
            ∃ before k' after,
              Required o = before ++ k' :: after
              ∧ (∀ x, x ∈ before → present cfg dest x = true)
              ∧ present cfg dest k' = false
              ∧ errs = [mkValidationError MissingKey k']) as Hfirst.
    { intros Hff.
      destruct (first_failing (present cfg dest) (Required o) k Hreq Hfalse)
        as (before & k' & after & Hsplit & Hbefore & Hk').
      exists before, k', after. repeat (split; [done|]).
      by apply (collect_first_failing cfg dest before k' after). }
    assert (errs ≠ []) as Hne.
    { destruct (FailFast o) eqn:Hff.
      - destruct (Hfirst eq_refl) as (? & ? & ? & _ & _ & _ & ->). done.
      - subst errs. rewrite collect_all by done. intros Hnil.
        apply app_eq_nil in Hnil as [Hnil _].
        pose proof (failing_key_listed cfg dest k (Required o) Hreq Hfalse)
          as Hin.
        simpl in Hnil. rewrite Hnil in Hin. by apply not_elem_of_nil in Hin. }
    split; [done|]. split; [|split].
    + rewrite Hcall. by destruct errs.
    + intros Hff. subst errs. rewrite collect_all by done.
      apply elem_of_app. left. by apply failing_key_listed.
    + intros Hff.
      destruct (Hfirst Hff) as (before & k' & after & H1 & H2 & H3 & H4).
      exists before, k', after. repeat (split; [done|]).
      rewrite H4, list_elem_of_singleton. split.
      * by intros [= ->].
      * by intros ->.
  - rewrite Hcall. subst errs. by destruct (collect cfg dest).
Qed.

(** An instance: [k] is null, required first and listed in
    [NullNotPresent], under fail-fast. *)
Lemma null_presence_policy_witness :
  let o := with_FailFast true
             (Sample.with_NullNotPresent ["k"]
                (Sample.with_Required ["k"; "a"] Sample.no_options)) in
  store_members [("k", VNull)] !! "k" = Some None
  ∧ UnmarshalX Sample.json (Sample.doc Sample.text_k_null) None (Some o)
    = (None, Some (OfErrorCollection
                     {| errors := [mkValidationError MissingKey "k"] |})).
Proof.
  cbv zeta. split; [reflexivity|].
  refine (proj1 (proj2 (proj1 (proj2
            (null_presence_policy Sample.json (Sample.doc Sample.text_k_null)
               None
               (with_FailFast true
                  (Sample.with_NullNotPresent ["k"]
                     (Sample.with_Required ["k"; "a"] Sample.no_options)))
               (store_members [("k", VNull)]) "k" eq_refl eq_refl _)) _))).
  - apply list_elem_of_here.
  - left. apply list_elem_of_here.
Defined.

(** C5 as stated fails under fail-fast.  The document is [{"k": null}],
    [k] is in [Required] and in [NullNotPresent], but [Required] lists
    [a] first: the call stops at [a] and returns no [MissingKey] for
    [k]. *)
Lemma null_policy_hidden_by_fail_fast :
  let o := with_FailFast true
             (Sample.with_NullNotPresent ["k"]
                (Sample.with_Required ["a"; "k"] Sample.no_options)) in
  Unmarshal_rawmap Sample.json (Sample.doc Sample.text_k_null)
    = inr (store_members [("k", VNull)])
  ∧ UnmarshalX Sample.json (Sample.doc Sample.text_k_null) None (Some o)
    = (None, Some (OfErrorCollection
                     {| errors := [mkValidationError MissingKey "a"] |}))
  ∧ mkValidationError MissingKey "k"
    ∉ returned_violations
        (UnmarshalX Sample.json (Sample.doc Sample.text_k_null) None (Some o)).
Proof.
  cbv zeta. split; [reflexivity|]. split; [reflexivity|].
  change (mkValidationError MissingKey "k" ∉ [mkValidationError MissingKey "a"]).
  intros Hin. apply list_elem_of_singleton in Hin. discriminate.
Qed.

(** ** Nil options *)

(** C7. With nil options [UnmarshalX], and so the package's [Unmarshal],
    is the library's [json.Unmarshal] on the same arguments: the
    destination is left as the library leaves it and the returned error
    is the library's own, whatever it is. *)
Theorem nil_options_pass_through {Dest} (J : Library Dest) data v :
  UnmarshalX J data v None = json_Unmarshal J data v
  ∧ Unmarshal J data v = UnmarshalX J data v None
  ∧ (Unmarshal J data v).1 = (json_Unmarshal J data v).1
  ∧ (Unmarshal J data v).2 = (json_Unmarshal J data v).2.
Proof.
  unfold Unmarshal. simpl.
  repeat split.
Qed.

(** ** Malformed input *)

(** C8. When the document does not scan, [UnmarshalX] with options
    returns the library's error itself, with the destination as received;
    that error is not one of the package's validation errors, and it is
    the same whatever the options require or forbid. *)
Theorem malformed_input_returned_unwrapped {Dest} (J : Library Dest)
    data v o err :
  scan J data = inl err →
  UnmarshalX J data v (Some o) = (v, Some (LibraryError err))
  ∧ is_validation_error (LibraryError err) = false
  ∧ returned_violations (UnmarshalX J data v (Some o)) = []
  ∧ ∀ o', UnmarshalX J data v (Some o') = UnmarshalX J data v (Some o).
Proof.
  intros Hscan.
  assert (∀ o', UnmarshalX J data v (Some o') = (v, Some (LibraryError err)))
    as Hany.
  { intros o'. unfold UnmarshalX, Unmarshal_rawmap. by rewrite Hscan. }
  split; [apply Hany|]. split; [done|]. split.
  - by rewrite Hany.
  - intros o'. by rewrite !Hany.
Qed.

(** An instance: a truncated document, with [foo] required. *)
Lemma malformed_input_returned_unwrapped_witness :
  scan Sample.json (Sample.doc Sample.text_truncated)
    = inl (SyntaxError "unexpected end of JSON input")
  ∧ UnmarshalX Sample.json (Sample.doc Sample.text_truncated)
      (Some (VBool true))
      (Some (Sample.with_Required ["foo"] Sample.no_options))
    = (Some (VBool true),
       Some (LibraryError (SyntaxError "unexpected end of JSON input"))).
Proof.
  split; [reflexivity|].
  exact (proj1 (malformed_input_returned_unwrapped Sample.json
                  (Sample.doc Sample.text_truncated) (Some (VBool true))
                  (Sample.with_Required ["foo"] Sample.no_options)
                  (SyntaxError "unexpected end of JSON input") eq_refl)).
Defined.

(** ** Determinism *)

(** C9. Any two runs of [UnmarshalX] on the same bytes, destination and
    options end with the same result, the same violations in the same
    order included, and that result is the one [UnmarshalX] computes. *)
Theorem UnmarshalX_deterministic {Dest} (J : Library Dest) data v pcfg r1 r2 :
  returns J data v pcfg r1 →
  returns J data v pcfg r2 →
  r1 = r2
  ∧ returned_violations r1 = returned_violations r2
  ∧ r1 = UnmarshalX J data v pcfg.
Proof.
  intros H1%returns_UnmarshalX H2%returns_UnmarshalX.
  subst r1 r2. done.
Qed.

(** An instance: the run the function computes, compared with itself. *)
Lemma UnmarshalX_deterministic_witness :
  let o := Sample.with_Required ["foo"]
             (Sample.with_Forbidden ["bar"] Sample.no_options) in
  let r := (None, Some (OfErrorCollection
                          {| errors := [mkValidationError MissingKey "foo";
                                        mkValidationError ForbiddenKey "bar"] |})) in
  returns Sample.json (Sample.doc Sample.text_bar) None (Some o) r
  ∧ r = UnmarshalX Sample.json (Sample.doc Sample.text_bar) None (Some o).
Proof.
  cbv zeta.
  pose proof (UnmarshalX_returns Sample.json (Sample.doc Sample.text_bar) None
                (Some (Sample.with_Required ["foo"]
                         (Sample.with_Forbidden ["bar"] Sample.no_options))))
    as Hrun.
  split; [exact Hrun|].
  exact (proj2 (proj2 (UnmarshalX_deterministic _ _ _ _ _ _ Hrun Hrun))).
Defined.

(** ** Options that are not nil *)

(** C10, as the code has it.  With options that are not nil, whatever
    they hold, a document whose top-level value is neither an object nor
    [null] makes [UnmarshalX] return the error of decoding into the
    string-keyed map with the destination as received; and whenever the
    plain decode of that document succeeds, the call with nil options and
    the call with these options differ. *)
Theorem non_object_rejected_before_decode {Dest} (J : Library Dest)
    data v o val :
  scan J data = inr val →
  is_object val = false →
  is_null val = false →
  UnmarshalX J data v (Some o)
    = (v, Some (LibraryError
                  (UnmarshalTypeError (kind_name val)
                     "map[string]*json.RawMessage")))
  ∧ ((json_Unmarshal J data v).2 = None →
     UnmarshalX J data v None ≠ UnmarshalX J data v (Some o)).
Proof.
  intros Hscan Hobj Hnull.
  assert (UnmarshalX J data v (Some o)
          = (v, Some (LibraryError
                        (UnmarshalTypeError (kind_name val)
                           "map[string]*json.RawMessage")))) as Hres.
  { unfold UnmarshalX, Unmarshal_rawmap. rewrite Hscan.
    by destruct val. }
  split; [done|].
  intros Hok. rewrite Hres. unfold UnmarshalX.
  intros Heq. rewrite Heq in Hok. discriminate.
Qed.

(** An instance: an array decodes with nil options and is refused with
    empty ones. *)
Lemma non_object_rejected_before_decode_witness :
  scan Sample.json (Sample.doc Sample.text_array) = inr (VList [VNumber "4444"])
  ∧ UnmarshalX Sample.json (Sample.doc Sample.text_array) None None
    = (Some (VList [VNumber "4444"]), None)
  ∧ UnmarshalX Sample.json (Sample.doc Sample.text_array) None
      (Some Sample.no_options)
    = (None, Some (LibraryError
                     (UnmarshalTypeError "array" "map[string]*json.RawMessage"))).
Proof.
  split; [reflexivity|]. split; [reflexivity|].
  exact (proj1 (non_object_rejected_before_decode Sample.json
                  (Sample.doc Sample.text_array) None Sample.no_options
                  (VList [VNumber "4444"]) eq_refl eq_refl eq_refl)).
Defined.

(** C10 as stated fails at [null].  Its top-level value is not an
    object, yet decoding it into the map succeeds and leaves the nil map;
    with empty options nothing is violated, the typed decode runs (the
    destination, which held [true], is set to nil) and the call ends as
    the one with nil options does. *)
Lemma null_document_reaches_typed_decode :
  scan Sample.json (Sample.doc Sample.text_null) = inr VNull
  ∧ is_object VNull = false
  ∧ UnmarshalX Sample.json (Sample.doc Sample.text_null) (Some (VBool true))
      (Some Sample.no_options)
    = (None, None)
  ∧ UnmarshalX Sample.json (Sample.doc Sample.text_null) (Some (VBool true))
      (Some Sample.no_options)
    = UnmarshalX Sample.json (Sample.doc Sample.text_null) (Some (VBool true))
        None.
Proof. repeat split. Qed.

(** * Further properties *)

(** ** Strings *)

Lemma append_cons (x : Ascii.ascii) (a b : string) :
  String x a +:+ b = String x (a +:+ b).
Proof. reflexivity. Qed.

Lemma append_nil_l (b : string) : EmptyString +:+ b = b.
Proof. reflexivity. Qed.

Lemma append_assoc (a b c : string) : (a +:+ b) +:+ c = a +:+ (b +:+ c).
Proof.
  induction a as [|x a IH]; [done|].
  rewrite !append_cons. by f_equal.
Qed.

Lemma append_length (a b : string) :
  String.length (a +:+ b) = String.length a + String.length b.
Proof.
  induction a as [|x a IH]; [done|].
  rewrite append_cons. simpl. by rewrite IH.
Qed.

Lemma append_inj_r (a b s : string) : a +:+ s = b +:+ s → a = b.
Proof.
  revert b. induction a as [|x a IH]; intros [|y b] Heq;
    rewrite ?append_cons, ?append_nil_l in Heq.
  - done.
  - apply (f_equal String.length) in Heq. simpl in Heq.
    rewrite append_length in Heq. lia.
  - apply (f_equal String.length) in Heq. simpl in Heq.
    rewrite append_length in Heq. lia.
  - injection Heq as -> Heq. by rewrite (IH b Heq).
Qed.

(** Two texts that are free of [c] and are each followed by [c] end at the
    same place. *)
Lemma split_at_first (c : Ascii.ascii) (a b r1 r2 : string) :
  free_of c a → free_of c b →
  a +:+ String c r1 = b +:+ String c r2 → a = b ∧ r1 = r2.
Proof.
  revert b. induction a as [|x a IH]; intros [|y b] Ha Hb Heq;
    rewrite ?append_cons, ?append_nil_l in Heq; simpl in Ha, Hb.
  - by injection Heq.
  - injection Heq as <- _. by destruct Hb.
  - injection Heq as -> _. by destruct Ha.
  - injection Heq as -> Heq.
    destruct (IH b) as [-> ->]; [apply Ha | apply Hb | done | done].
Qed.

Lemma pretty_N_go_free_of_space x s :
  free_of " "%char s → free_of " "%char (pretty_N_go x s).
Proof.
  revert s. induction (N.lt_wf_0 x) as [x _ IH]; intros s Hs.
  assert (x = 0 ∨ 0 < x)%N as [->|Hpos] by lia.
  - by rewrite pretty_N_go_0.
  - rewrite pretty_N_go_step by done. apply IH; [by apply N.div_lt|].
    split; [|done]. unfold pretty_N_char. by repeat case_match.
Qed.

Lemma pretty_Z_free_of_space (x : Z) : free_of " "%char (pretty x).
Proof.
  assert (∀ n : N, free_of " "%char (pretty n)) as HN.
  { intros n. unfold pretty, pretty_N. case_decide; [done|].
    by apply pretty_N_go_free_of_space. }
  destruct x as [|p|p]; unfold pretty, pretty_Z; [done | apply HN |].
  split; [done | apply HN].
Qed.

(** ** What the collected errors depend on *)

Lemma requiredLoop_ext cfg1 cfg2 d1 d2 keys errs :
  (∀ k, present cfg1 d1 k = present cfg2 d2 k) →
  FailFast (embedded cfg1) = FailFast (embedded cfg2) →
  requiredLoop cfg1 d1 keys errs = requiredLoop cfg2 d2 keys errs.
Proof.
  intros Hp Hff. revert errs.
  induction keys as [|k rest IH]; intros errs; simpl; [done|].
  rewrite (Hp k). destruct (present cfg2 d2 k); simpl; [apply IH|].
  unfold addError. rewrite Hff.
  destruct (FailFast (embedded cfg2)); [done | apply IH].
Qed.

Lemma forbiddenLoop_ext cfg1 cfg2 keys errs :
  FailFast (embedded cfg1) = FailFast (embedded cfg2) →
  forbiddenLoop cfg1 keys errs = forbiddenLoop cfg2 keys errs.
Proof.
  intros Hff. revert errs.
  induction keys as [|k rest IH]; intros errs; simpl; [done|].
  unfold addError. rewrite Hff.
  destruct (FailFast (embedded cfg2)); [done | apply IH].
Qed.

Lemma collect_ext cfg1 cfg2 d1 d2 :
  (∀ k, present cfg1 d1 k = present cfg2 d2 k) →
  FailFast (embedded cfg1) = FailFast (embedded cfg2) →
  Required (embedded cfg1) = Required (embedded cfg2) →
  Forbidden (embedded cfg1) = Forbidden (embedded cfg2) →
  collect cfg1 d1 = collect cfg2 d2.
Proof.
  intros Hp Hff Hreq Hforb. unfold collect.
  rewrite Hreq, Hforb, (requiredLoop_ext cfg1 cfg2 d1 d2 _ _ Hp Hff).
  destruct (requiredLoop cfg2 d2 _ _) as [errs []]; [done|].
  by rewrite (forbiddenLoop_ext cfg1 cfg2 _ _ Hff).
Qed.

Lemma UnmarshalX_ext {Dest} (J : Library Dest) data v o1 o2 :
  (∀ dest k, present (prepareOptions o1 v) dest k
             = present (prepareOptions o2 v) dest k) →
  FailFast o1 = FailFast o2 →
  Required o1 = Required o2 →
  Forbidden o1 = Forbidden o2 →
  UnmarshalX J data v (Some o1) = UnmarshalX J data v (Some o2).
Proof.
  intros Hp Hff Hreq Hforb. unfold UnmarshalX.
  destruct (Unmarshal_rawmap J data) as [err|dest]; [done|].
  by rewrite (collect_ext (prepareOptions o1 v) (prepareOptions o2 v) dest dest).
Qed.

Lemma collect_nil_iff cfg dest :
  collect cfg dest = [] ↔ reported cfg dest = [].
Proof.
  destruct (FailFast (embedded cfg)) eqn:Hff.
  - rewrite collect_first by done. by destruct (reported cfg dest).
  - by rewrite collect_all.
Qed.

(** ** When validation passes *)

(** The loops collect nothing exactly when every key of [Required]
    passes [present] and [Forbidden] lists no key at all; then the call
    returns what [json.Unmarshal] returns, and otherwise it returns the
    collected errors and the destination as received. *)
Theorem validation_passes_exactly_when {Dest} (J : Library Dest)
    data (v : Dest) o dest :
  Unmarshal_rawmap J data = inr dest →
  let errs := collect (prepareOptions o v) dest in
  let passes :=
    (∀ k, k ∈ Required o → present (prepareOptions o v) dest k = true)
    ∧ Forbidden o = [] in
  (errs = [] ↔ passes)
  ∧ (passes → UnmarshalX J data v (Some o) = json_Unmarshal J data v)
  ∧ (¬ passes →
     errs ≠ []
     ∧ UnmarshalX J data v (Some o)
       = (v, Some (OfErrorCollection (mkErrorCollection errs)))).
Proof.
  intros Hmap errs passes.
  assert (errs = [] ↔ passes) as Hiff.
  { subst errs passes. rewrite collect_nil_iff. unfold reported. simpl. split.
    - intros [Hreq Hforb]%app_eq_nil.
      apply map_eq_nil in Hreq. apply map_eq_nil in Hforb.
      split; [|done]. intros k Hk.
      pose proof (proj1 (filter_nil_iff _ _) Hreq k Hk) as Hneg.
      by apply negb_false_iff in Hneg.
    - intros [Hreq ->]. simpl. rewrite app_nil_r.
      replace (List.filter _ (Required o)) with (@nil string); [done|].
      symmetry. apply filter_nil_iff. intros k Hk. by rewrite (Hreq k Hk). }
  pose proof (UnmarshalX_validated J data v o dest Hmap) as Hcall.
  fold errs in Hcall.
  split; [done|]. split.
  - intros Hpass%Hiff. by rewrite Hcall, Hpass.
  - intros Hfail.
    assert (errs ≠ []) as Hne by (intros Hnil%Hiff; by apply Hfail).
    split; [done|]. rewrite Hcall. by destruct errs.
Qed.

(** An instance: [foo] is required and the document holds it. *)
Lemma validation_passes_exactly_when_witness :
  UnmarshalX Sample.json (Sample.doc Sample.text_foo_bar) None
    (Some (Sample.with_Required ["foo"] Sample.no_options))
  = json_Unmarshal Sample.json (Sample.doc Sample.text_foo_bar) None.
Proof.
  refine (proj1 (proj2
            (validation_passes_exactly_when Sample.json
               (Sample.doc Sample.text_foo_bar) None
               (Sample.with_Required ["foo"] Sample.no_options)
               (store_members [("foo", VString "foo"); ("bar", VNumber "4444")])
               eq_refl)) _).
  split; [|reflexivity].
  intros k Hk. apply list_elem_of_singleton in Hk. by rewrite Hk.
Defined.

(** Options only ever reject: when a call with options returns no error,
    it returned what the call with nil options returns. *)
Theorem options_only_reject {Dest} (J : Library Dest) data v o :
  (UnmarshalX J data v (Some o)).2 = None →
  UnmarshalX J data v (Some o) = UnmarshalX J data v None.
Proof.
  unfold UnmarshalX.
  destruct (Unmarshal_rawmap J data) as [err|dest]; [done|].
  simpl. by destruct (collect (prepareOptions o v) dest).
Qed.

(** An instance: the required key is there, so the call decodes. *)
Lemma options_only_reject_witness :
  UnmarshalX Sample.json (Sample.doc Sample.text_foo_bar) None
    (Some (Sample.with_Required ["foo"] Sample.no_options))
  = UnmarshalX Sample.json (Sample.doc Sample.text_foo_bar) None None.
Proof.
  exact (options_only_reject Sample.json (Sample.doc Sample.text_foo_bar) None
           (Sample.with_Required ["foo"] Sample.no_options) eq_refl).
Defined.

(** A call with options either is the plain decode, or returns an error
    and hands the destination back as received. *)
Theorem rejected_or_plainly_decoded {Dest} (J : Library Dest) data v o :
  UnmarshalX J data v (Some o) = UnmarshalX J data v None
  ∨ ((UnmarshalX J data v (Some o)).1 = v
     ∧ (UnmarshalX J data v (Some o)).2 ≠ None).
Proof.
  unfold UnmarshalX.
  destruct (Unmarshal_rawmap J data) as [err|dest]; [by right|].
  simpl. destruct (collect (prepareOptions o v) dest); [by left | by right].
Qed.

(** ** How many violations *)

Lemma filter_length_le {A} (f : A → bool) (l : list A) :
  length (List.filter f l) ≤ length l.
Proof.
  induction l as [|a l IH]; simpl; [done|].
  destruct (f a); simpl; lia.
Qed.

(** The errors a call collects, which are the violations it returns
    whenever there are any, number at most one per entry of [Required]
    and of [Forbidden], and at most one in all under fail-fast. *)
Theorem violations_bounded {Dest} (J : Library Dest) data (v : Dest) o dest :
  Unmarshal_rawmap J data = inr dest →
  let errs := collect (prepareOptions o v) dest in
  length errs ≤ length (Required o) + length (Forbidden o)
  ∧ (FailFast o = true → length errs ≤ 1)
  ∧ (errs ≠ [] → returned_violations (UnmarshalX J data v (Some o)) = errs).
Proof.
  intros Hmap errs.
  assert (length (reported (prepareOptions o v) dest)
          ≤ length (Required o) + length (Forbidden o)) as Hall.
  { unfold reported. rewrite length_app, !length_map. simpl.
    pose proof (filter_length_le
                  (λ k, negb (present (prepareOptions o v) dest k))
                  (Required o)). lia. }
  split; [|split].
  - subst errs. destruct (FailFast o) eqn:Hff.
    + rewrite collect_first by done. rewrite length_take. lia.
    + by rewrite collect_all.
  - intros Hff. subst errs. rewrite collect_first by done.
    rewrite length_take. lia.
  - by apply returned_violations_collected.
Qed.

(** An instance: one required key, one forbidden key, fail-fast. *)
Lemma violations_bounded_witness :
  length (collect
            (prepareOptions
               (with_FailFast true
                  (Sample.with_Required ["foo"]
                     (Sample.with_Forbidden ["bar"] Sample.no_options)))
               (None : option Value))
            (store_members [("bar", VNumber "4444")]))
  ≤ 1.
Proof.
  exact (proj1 (proj2
           (violations_bounded Sample.json (Sample.doc Sample.text_bar) None
              (with_FailFast true
                 (Sample.with_Required ["foo"]
                    (Sample.with_Forbidden ["bar"] Sample.no_options)))
              (store_members [("bar", VNumber "4444")]) eq_refl)) eq_refl).
Defined.

Lemma count_missing cfg dest keys k :
  count_occ ValidationError_eq_dec
    (map (mkValidationError MissingKey)
       (List.filter (λ k, negb (present cfg dest k)) keys))
    (mkValidationError MissingKey k)
  = if present cfg dest k then 0 else count_occ String.eq_dec keys k.
Proof.
  induction keys as [|k' rest IH]; cbn [List.filter map].
  - by destruct (present cfg dest k).
  - destruct (String.eq_dec k' k) as [->|Hk].
    + rewrite (count_occ_cons_eq String.eq_dec rest eq_refl).
      destruct (present cfg dest k) eqn:Hp; cbn [negb map].
      * done.
      * rewrite (count_occ_cons_eq ValidationError_eq_dec _ eq_refl).
        by rewrite IH.
    + rewrite (count_occ_cons_neq String.eq_dec rest Hk).
      destruct (present cfg dest k'); cbn [negb map]; [done|].
      rewrite count_occ_cons_neq; [done|]. intros Heq. by injection Heq.
Qed.

Lemma count_forbidden keys k :
  count_occ ValidationError_eq_dec
    (map (mkValidationError ForbiddenKey) keys)
    (mkValidationError ForbiddenKey k)
  = count_occ String.eq_dec keys k.
Proof.
  induction keys as [|k' rest IH]; cbn [map]; [done|].
  destruct (String.eq_dec k' k) as [->|Hk].
  - rewrite (count_occ_cons_eq String.eq_dec rest eq_refl).
    by rewrite (count_occ_cons_eq ValidationError_eq_dec _ eq_refl), IH.
  - rewrite (count_occ_cons_neq String.eq_dec rest Hk).
    rewrite count_occ_cons_neq; [done|]. intros Heq. by injection Heq.
Qed.

Lemma count_other_kind (t t' : ValidationErrorType) keys k :
  t ≠ t' →
  count_occ ValidationError_eq_dec (map (mkValidationError t) keys)
    (mkValidationError t' k) = 0.
Proof.
  intros Hne. induction keys as [|k' rest IH]; cbn [map]; [done|].
  rewrite count_occ_cons_neq; [done|]. intros Heq. by injection Heq.
Qed.

(** Nothing is deduplicated.  Without fail-fast, among the errors a
    call collects, which are the violations it returns whenever there are
    any, a failing key has as many [MissingKey] entries as [Required]
    lists it, and any key has as many [ForbiddenKey] entries as
    [Forbidden] lists it. *)
Theorem listed_twice_reported_twice {Dest} (J : Library Dest)
    data (v : Dest) o dest k :
  Unmarshal_rawmap J data = inr dest →
  FailFast o = false →
  let errs := collect (prepareOptions o v) dest in
  (present (prepareOptions o v) dest k = false →
   count_occ ValidationError_eq_dec errs (mkValidationError MissingKey k)
   = count_occ String.eq_dec (Required o) k)
  ∧ count_occ ValidationError_eq_dec errs (mkValidationError ForbiddenKey k)
    = count_occ String.eq_dec (Forbidden o) k
  ∧ (errs ≠ [] → returned_violations (UnmarshalX J data v (Some o)) = errs).
Proof.
  intros Hmap Hff errs.
  assert (errs = reported (prepareOptions o v) dest) as Herrs
    by (subst errs; by rewrite collect_all).
  split; [|split].
  - intros Hp. rewrite Herrs. unfold reported. simpl.
    rewrite count_occ_app, count_missing, Hp.
    rewrite (count_other_kind ForbiddenKey MissingKey) by done. lia.
  - rewrite Herrs. unfold reported. simpl. rewrite count_occ_app.
    rewrite (count_other_kind MissingKey ForbiddenKey) by done.
    by rewrite count_forbidden.
  - by apply returned_violations_collected.
Qed.

(** An instance: [foo] required twice and absent. *)
Lemma listed_twice_reported_twice_witness :
  count_occ ValidationError_eq_dec
    (collect
       (prepareOptions (Sample.with_Required ["foo"; "foo"] Sample.no_options)
          (None : option Value))
       (store_members [("bar", VNumber "4444")]))
    (mkValidationError MissingKey "foo")
  = count_occ String.eq_dec ["foo"; "foo"] "foo".
Proof.
  exact (proj1 (listed_twice_reported_twice Sample.json
                  (Sample.doc Sample.text_bar) None
                  (Sample.with_Required ["foo"; "foo"] Sample.no_options)
                  (store_members [("bar", VNumber "4444")]) "foo"
                  eq_refl eq_refl) eq_refl).
Defined.

(** ** What the options mean *)

(** [NullNotPresent] is read as a set: two lists with the same elements,
    in whatever order and with whatever repetitions, give the same
    call. *)
Theorem NullNotPresent_read_as_set {Dest} (J : Library Dest) data v o keys :
  (∀ k, k ∈ keys ↔ k ∈ NullNotPresent o) →
  UnmarshalX J data v (Some (Sample.with_NullNotPresent keys o))
  = UnmarshalX J data v (Some o).
Proof.
  intros Hsame. apply UnmarshalX_ext; try done.
  intros dest k. rewrite !present_prepared. simpl.
  by rewrite (bool_decide_ext _ _ (Hsame k)).
Qed.

(** An instance: a list and a reordering of it with a repetition. *)
Lemma NullNotPresent_read_as_set_witness :
  UnmarshalX Sample.json (Sample.doc Sample.text_foo_null_bar) None
    (Some (Sample.with_NullNotPresent ["bar"; "foo"; "bar"]
             (Sample.with_NullNotPresent ["foo"; "bar"]
                (Sample.with_Required ["foo"] Sample.no_options))))
  = UnmarshalX Sample.json (Sample.doc Sample.text_foo_null_bar) None
      (Some (Sample.with_NullNotPresent ["foo"; "bar"]
               (Sample.with_Required ["foo"] Sample.no_options))).
Proof.
  refine (NullNotPresent_read_as_set Sample.json
            (Sample.doc Sample.text_foo_null_bar) None
            (Sample.with_NullNotPresent ["foo"; "bar"]
               (Sample.with_Required ["foo"] Sample.no_options))
            ["bar"; "foo"; "bar"] _).
  intros k. simpl. rewrite !elem_of_cons, !elem_of_nil. tauto.
Defined.

(** [Pedantic] and [Strict] change nothing: a call behaves the same
    however the two flags are set. *)
Theorem unsupported_modes_ignored {Dest} (J : Library Dest)
    data v o pedantic strict :
  UnmarshalX J data v (Some (with_modes pedantic strict o))
  = UnmarshalX J data v (Some o).
Proof.
  apply UnmarshalX_ext; [|done..].
  intros dest k. by rewrite !present_prepared.
Qed.

(** With [GlobalNullNotPresent] set, [NullNotPresent] is not consulted:
    any list gives the same call. *)
Theorem global_flag_overrides_list {Dest} (J : Library Dest) data v o keys :
  GlobalNullNotPresent o = true →
  UnmarshalX J data v (Some (Sample.with_NullNotPresent keys o))
  = UnmarshalX J data v (Some o).
Proof.
  intros Hglobal. apply UnmarshalX_ext; try done.
  intros dest k. rewrite !present_prepared. simpl.
  by rewrite Hglobal.
Qed.

(** An instance: the flag is set and the list is emptied. *)
Lemma global_flag_overrides_list_witness :
  let o := with_GlobalNullNotPresent true
             (Sample.with_NullNotPresent ["foo"]
                (Sample.with_Required ["foo"] Sample.no_options)) in
  UnmarshalX Sample.json (Sample.doc Sample.text_foo_null_bar) None
    (Some (Sample.with_NullNotPresent [] o))
  = UnmarshalX Sample.json (Sample.doc Sample.text_foo_null_bar) None (Some o).
Proof.
  cbv zeta.
  exact (global_flag_overrides_list Sample.json
           (Sample.doc Sample.text_foo_null_bar) None
           (with_GlobalNullNotPresent true
              (Sample.with_NullNotPresent ["foo"]
                 (Sample.with_Required ["foo"] Sample.no_options)))
           [] eq_refl).
Defined.

(** A member that is not [null] satisfies [Required] under every null
    policy: the call collects no [MissingKey] for it, so whenever the call
    returns collected errors none of them is a [MissingKey] for it. *)
Theorem value_satisfies_required {Dest} (J : Library Dest)
    data (v : Dest) o dest k raw :
  Unmarshal_rawmap J data = inr dest →
  dest !! k = Some (Some raw) →
  let errs := collect (prepareOptions o v) dest in
  present (prepareOptions o v) dest k = true
  ∧ (mkValidationError MissingKey k ∉ errs)
  ∧ (errs ≠ [] →
     mkValidationError MissingKey k
       ∉ returned_violations (UnmarshalX J data v (Some o))).
Proof.
  intros Hmap Hk errs.
  assert (present (prepareOptions o v) dest k = true) as Hp
    by by rewrite present_prepared, Hk.
  assert (mkValidationError MissingKey k ∉ errs) as Hnot.
  { intros [Hin|Hin]%collect_within_reported%reported_names_listed_key.
    - destruct Hin as (_ & _ & Hfalse). simpl in Hfalse. congruence.
    - by destruct Hin. }
  split; [done|]. split; [done|].
  intros Hne. by rewrite (returned_violations_collected _ _ _ _ _ Hmap Hne).
Qed.

(** An instance: [foo] holds a string while both null policies are on;
    the forbidden [bar] is what gets reported. *)
Lemma value_satisfies_required_witness :
  let o := with_GlobalNullNotPresent true
             (Sample.with_NullNotPresent ["foo"]
                (Sample.with_Required ["foo"]
                   (Sample.with_Forbidden ["bar"] Sample.no_options))) in
  store_members [("foo", VString "foo"); ("bar", VNumber "4444")] !! "foo"
    = Some (Some (VString "foo"))
  ∧ mkValidationError MissingKey "foo"
    ∉ returned_violations
        (UnmarshalX Sample.json (Sample.doc Sample.text_foo_bar) None (Some o)).
Proof.
  cbv zeta. split; [reflexivity|].
  refine (proj2 (proj2
            (value_satisfies_required Sample.json
               (Sample.doc Sample.text_foo_bar) None
               (with_GlobalNullNotPresent true
                  (Sample.with_NullNotPresent ["foo"]
                     (Sample.with_Required ["foo"]
                        (Sample.with_Forbidden ["bar"] Sample.no_options))))
               (store_members [("foo", VString "foo"); ("bar", VNumber "4444")])
               "foo" (VString "foo") eq_refl eq_refl)) _).
  vm_compute. discriminate.
Defined.

(** Once [Forbidden] lists any key, no document is decoded: every call
    returns an error and hands the destination back as received. *)
Theorem forbidding_blocks_every_decode {Dest} (J : Library Dest) data v o :
  Forbidden o ≠ [] →
  (UnmarshalX J data v (Some o)).1 = v
  ∧ (UnmarshalX J data v (Some o)).2 ≠ None.
Proof.
  intros Hforb. unfold UnmarshalX.
  destruct (Unmarshal_rawmap J data) as [err|dest]; [done|]. simpl.
  destruct (collect (prepareOptions o v) dest) as [|e errs] eqn:Hc; [|done].
  apply collect_nil_iff in Hc. unfold reported in Hc.
  apply app_eq_nil in Hc as [_ Hc]. apply map_eq_nil in Hc. done.
Qed.

(** An instance: the document holds neither forbidden key and would
    decode, yet the call is refused. *)
Lemma forbidding_blocks_every_decode_witness :
  (UnmarshalX Sample.json (Sample.doc Sample.text_foo_bar) None None).2 = None
  ∧ (UnmarshalX Sample.json (Sample.doc Sample.text_foo_bar) None
       (Some (Sample.with_Forbidden ["baz"] Sample.no_options))).2 ≠ None.
Proof.
  split; [reflexivity|].
  refine (proj2 (forbidding_blocks_every_decode Sample.json
                   (Sample.doc Sample.text_foo_bar) None
                   (Sample.with_Forbidden ["baz"] Sample.no_options) _)).
  discriminate.
Defined.

(** ** Error messages *)

Lemma missingKey_inj k1 k2 : missingKey k1 = missingKey k2 → k1 = k2.
Proof.
  unfold missingKey. intros Heq%(inj (String.app _)).
  by apply append_inj_r in Heq.
Qed.

Lemma forbiddenKey_inj k1 k2 : forbiddenKey k1 = forbiddenKey k2 → k1 = k2.
Proof.
  unfold forbiddenKey. intros Heq%(inj (String.app _)).
  by apply append_inj_r in Heq.
Qed.

Lemma unexpected_inj (c1 c2 : Z) k1 k2 :
  "unexpected error type " +:+ pretty c1 +:+ " for key <" +:+ k1 +:+ ">"
  = "unexpected error type " +:+ pretty c2 +:+ " for key <" +:+ k2 +:+ ">" →
  c1 = c2 ∧ k1 = k2.
Proof.
  intros Heq%(inj (String.app _)).
  change (" for key <" +:+ k1 +:+ ">")
    with (String " " ("for key <" +:+ k1 +:+ ">")) in Heq.
  change (" for key <" +:+ k2 +:+ ">")
    with (String " " ("for key <" +:+ k2 +:+ ">")) in Heq.
  apply split_at_first in Heq as [Hc Hk];
    [|apply pretty_Z_free_of_space..].
  split; [by apply (inj pretty)|].
  apply (inj (String.app _)) in Hk. by apply append_inj_r in Hk.
Qed.

Lemma describe_determines (c1 c2 : Z) (k1 k2 : string) :
  describe c1 k1 = describe c2 k2 → c1 = c2 ∧ k1 = k2.
Proof.
  unfold describe, type_code.
  destruct (Z.eqb_spec c1 0) as [->|H10], (Z.eqb_spec c2 0) as [->|H20];
    [| destruct (Z.eqb_spec c2 1) as [->|H21]
     | destruct (Z.eqb_spec c1 1) as [->|H11]
     | destruct (Z.eqb_spec c1 1) as [->|H11],
                (Z.eqb_spec c2 1) as [->|H21] ];
    intros Heq;
    first [ by apply missingKey_inj in Heq
          | by apply forbiddenKey_inj in Heq
          | by apply unexpected_inj in Heq
          | unfold missingKey, forbiddenKey in Heq;
            rewrite !append_cons in Heq; discriminate ].
Qed.

(** The message of a [ValidationError] tells its type and its key apart
    from every other: two structs, whatever integers their [Type] fields
    hold, have the same message only if they have the same type and the
    same key. *)
Theorem describe_inj (c1 c2 : Z) (k1 k2 : string) :
  describe c1 k1 = describe c2 k2 ↔ c1 = c2 ∧ k1 = k2.
Proof.
  split; [apply describe_determines | by intros [-> ->]].
Qed.

(** [ValidationError.Error] on the violations the package builds. *)
Lemma ValidationError_Error_inj ve1 ve2 :
  ValidationError_Error ve1 = ValidationError_Error ve2 → ve1 = ve2.
Proof.
  unfold ValidationError_Error. intros [Hc Hk]%describe_determines.
  destruct ve1 as [[] k1], ve2 as [[] k2]; simpl in *; by subst.
Qed.

Lemma ValidationError_Error_not_empty ve :
  ∃ c rest, ValidationError_Error ve = String c rest.
Proof. destruct ve as [[] k]; eexists _, _; reflexivity. Qed.

Lemma Join_cons_cons e e' rest sep :
  Join (e :: e' :: rest) sep = e +:+ sep +:+ Join (e' :: rest) sep.
Proof. reflexivity. Qed.

Lemma Join_app (a b : list string) sep :
  a ≠ [] → b ≠ [] →
  Join (a ++ b) sep = Join a sep +:+ sep +:+ Join b sep.
Proof.
  intros Ha Hb. induction a as [|e [|e' a] IH]; [done| |].
  - destruct b as [|e' b]; [done | reflexivity].
  - change ((e :: e' :: a) ++ b) with (e :: e' :: (a ++ b)).
    rewrite !Join_cons_cons.
    change (e' :: a ++ b) with ((e' :: a) ++ b).
    rewrite IH by done. by rewrite !append_assoc.
Qed.

(** The message [['']] stands for the collection without entries and for
    no other. *)
Theorem empty_collection_message (e : ErrorCollection) :
  ErrorCollection_Error e = "['']" ↔ errors e = [].
Proof.
  unfold ErrorCollection_Error. split.
  - intros Heq.
    change "['']" with ("['" +:+ EmptyString +:+ "']") in Heq.
    apply (inj (String.app _)), append_inj_r in Heq.
    destruct (errors e) as [|ve rest]; [done|].
    destruct (ValidationError_Error_not_empty ve) as (c & tail & Hve).
    simpl in Heq. rewrite Hve in Heq.
    destruct (map ValidationError_Error rest); [done|].
    by rewrite append_cons in Heq.
  - by intros ->.
Qed.

(** The message of a collection does not determine the collection: a key
    may itself contain the text that separates two entries. *)
Theorem collection_message_ambiguous :
  ¬ ∀ e1 e2 : ErrorCollection,
      ErrorCollection_Error e1 = ErrorCollection_Error e2 → e1 = e2.
Proof.
  intros Hinj.
  specialize (Hinj
    {| errors := [mkValidationError MissingKey
                    "a> not found', 'required key <b"] |}
    {| errors := [mkValidationError MissingKey "a";
                  mkValidationError MissingKey "b"] |}
    eq_refl).
  discriminate.
Qed.

(** What the caller reads.  Without fail-fast, when anything is violated,
    the returned collection's message is the bracketed list of one
    [required key <k> not found] per failing key of [Required], in
    declaration order, followed by one [forbidden key <k> was set] per key
    of [Forbidden], in declaration order. *)
Theorem message_lists_required_then_forbidden {Dest} (J : Library Dest)
    data v o dest :
  Unmarshal_rawmap J data = inr dest →
  FailFast o = false →
  collect (prepareOptions o v) dest ≠ [] →
  ∃ ec,
    (UnmarshalX J data v (Some o)).2 = Some (OfErrorCollection ec)
    ∧ ErrorCollection_Error ec
      = "['" +:+
        Join (map missingKey
                (List.filter (λ k, negb (present (prepareOptions o v) dest k))
                   (Required o))
              ++ map forbiddenKey (Forbidden o)) "', '"
        +:+ "']".
Proof.
  intros Hmap Hff Hne.
  exists (mkErrorCollection (collect (prepareOptions o v) dest)). split.
  - rewrite (UnmarshalX_validated _ _ _ _ _ Hmap).
    by destruct (collect (prepareOptions o v) dest).
  - unfold ErrorCollection_Error. simpl.
    rewrite collect_all by done. unfold reported. simpl.
    by rewrite map_app, !map_map.
Qed.

(** An instance: the text for a missing [foo] and a forbidden [bar]. *)
Lemma message_lists_required_then_forbidden_witness :
  ∃ ec,
    (UnmarshalX Sample.json (Sample.doc Sample.text_bar) None
       (Some (Sample.with_Required ["foo"]
                (Sample.with_Forbidden ["bar"] Sample.no_options)))).2
    = Some (OfErrorCollection ec)
    ∧ ErrorCollection_Error ec
      = "['required key <foo> not found', 'forbidden key <bar> was set']".
Proof.
  refine (message_lists_required_then_forbidden Sample.json
            (Sample.doc Sample.text_bar) None
            (Sample.with_Required ["foo"]
               (Sample.with_Forbidden ["bar"] Sample.no_options))
            (store_members [("bar", VNumber "4444")]) eq_refl eq_refl _).
  vm_compute. discriminate.
Defined.

(** Under fail-fast the message holds one text alone, between the
    brackets: [required key <k> not found] for the first key of
    [Required] that fails the presence test or, when none fails,
    [forbidden key <k> was set] for the first key of [Forbidden], held by
    the document or not. *)
Theorem fail_fast_message {Dest} (J : Library Dest) data (v : Dest) o dest :
  Unmarshal_rawmap J data = inr dest →
  FailFast o = true →
  let failing :=
    List.filter (λ k, negb (present (prepareOptions o v) dest k))
      (Required o) in
  (∀ k rest, failing = k :: rest →
     ∃ ec,
       (UnmarshalX J data v (Some o)).2 = Some (OfErrorCollection ec)
       ∧ ErrorCollection_Error ec = "['" +:+ missingKey k +:+ "']")
  ∧ (∀ k rest, failing = [] → Forbidden o = k :: rest →
     ∃ ec,
       (UnmarshalX J data v (Some o)).2 = Some (OfErrorCollection ec)
       ∧ ErrorCollection_Error ec = "['" +:+ forbiddenKey k +:+ "']").
Proof.
  intros Hmap Hff failing.
  assert (collect (prepareOptions o v) dest
          = take 1 (map (mkValidationError MissingKey) failing
                    ++ map (mkValidationError ForbiddenKey) (Forbidden o)))
    as Hc by by rewrite collect_first.
  split.
  - intros k rest Hfail.
    exists (mkErrorCollection [mkValidationError MissingKey k]).
    by rewrite (UnmarshalX_validated _ _ _ _ _ Hmap), Hc, Hfail.
  - intros k rest Hfail Hforb.
    exists (mkErrorCollection [mkValidationError ForbiddenKey k]).
    by rewrite (UnmarshalX_validated _ _ _ _ _ Hmap), Hc, Hfail, Hforb.
Qed.

(** An instance: [foo] missing, [bar] forbidden, fail-fast. *)
Lemma fail_fast_message_witness :
  ∃ ec,
    (UnmarshalX Sample.json (Sample.doc Sample.text_bar) None
       (Some (with_FailFast true
                (Sample.with_Required ["foo"]
                   (Sample.with_Forbidden ["bar"] Sample.no_options))))).2
    = Some (OfErrorCollection ec)
    ∧ ErrorCollection_Error ec = "['required key <foo> not found']".
Proof.
  exact (proj1 (fail_fast_message Sample.json (Sample.doc Sample.text_bar) None
                  (with_FailFast true
                     (Sample.with_Required ["foo"]
                        (Sample.with_Forbidden ["bar"] Sample.no_options)))
                  (store_members [("bar", VNumber "4444")]) eq_refl eq_refl)
           "foo" [] eq_refl).
Defined.

(** ** The prepared options, read back *)

(** A [null] counts as a set value for [k] exactly when
    [GlobalNullNotPresent] is off and [NullNotPresent] does not list
    [k]. *)
Theorem nullIsPresent_exactly_when {Dest} (o : Options) (v : Dest) k :
  nullIsPresent (prepareOptions o v) k = true
  ↔ GlobalNullNotPresent o = false ∧ k ∉ NullNotPresent o.
Proof.
  rewrite nullIsPresent_prepared, andb_true_iff, !negb_true_iff.
  by rewrite bool_decide_eq_false.
Qed.

(** A key is present exactly when the object holds it and, should its
    value be [null], a [null] counts as a set value for it. *)
Theorem present_exactly_when {Dest} (o : Options) (v : Dest) dest k :
  present (prepareOptions o v) dest k = true
  ↔ ∃ p, dest !! k = Some p
         ∧ (p = None → GlobalNullNotPresent o = false ∧ k ∉ NullNotPresent o).
Proof.
  rewrite present_prepared. destruct (dest !! k) as [[raw|]|].
  - split; [|done]. intros _. exists (Some raw). by split.
  - rewrite andb_true_iff, !negb_true_iff, bool_decide_eq_false. split.
    + intros Hok. exists None. by split.
    + intros (p & [= <-] & Hok). by apply Hok.
  - split; [done|]. by intros (p & Hp & _).
Qed.
